(** * Memory admission checks of the vectorized allocator

    A shallow embedding of [be/src/vec/common/allocator.cpp]:
    [Allocator::sys_memory_check], [Allocator::memory_tracker_check] and
    [Allocator::memory_check], together with the properties of the
    admission decision that follow from the code.

    The embedded build is the production one ([BE_TEST] undefined, so the
    [ExecEnv::ready()] guards are compiled out).  The template parameters
    of [Allocator] do not occur in the bodies of the three checks, so one
    embedding serves every instantiation. *)

From Stdlib Require Import ZArith List String Bool Lia QArith.
From Stdlib Require Import DecimalString.
Import ListNotations.

Local Open Scope string_scope.
Local Open Scope Z_scope.

(** ** Data *)

(** The codes of [doris::ErrorCode] that reach this file: the one the
    checks raise, and those a tracker's status may carry. *)
Inductive ErrorCode : Type :=
| OK
| INTERNAL_ERROR
| MEM_LIMIT_EXCEEDED
| MEM_ALLOC_FAILED.

(** [doris::Status] as returned by [MemTrackerLimiter::check_limit]; the
    class is declared outside this file.  [operator bool], which the
    check tests, is true exactly for [StatusOK]. *)
Inductive Status : Type :=
| StatusOK
| StatusError (code : ErrorCode) (text : string).

Definition status_ok (st : Status) : bool :=
  match st with
  | StatusOK => true
  | StatusError _ _ => false
  end.

(** [st.to_string()]; the text of an error status is kept whole. *)
Definition status_to_string (st : Status) : string :=
  match st with
  | StatusOK => "OK"
  | StatusError _ text => text
  end.

(** The entries of [doris::config] read by the checks, and the
    constant of the polling loop. *)
Record Config : Type := mkConfig {
  mem_alloc_fault_probability : Q;
  enable_stacktrace : bool;
  stacktrace_in_alloc_large_memory_bytes : Z;
  thread_wait_gc_max_milliseconds : Z;
  disable_memory_gc : bool
}.

(** What [doris::thread_context()] answers and the check never changes:
    the bypass counter, the identifiers that are printed, the figures of
    the thread's tracker, whether a query is attached, and the
    thread-local [doris::enable_thread_catch_bad_alloc]. *)
Record ThreadContext : Type := mkThreadContext {
  skip_memory_check : Z;
  task_id : string;
  thread_id : string;
  tracker_label : string;
  peak_consumption : Z;
  consumption : Z;
  last_consumer_tracker_label : string;
  is_attach_query : bool;
  enable_thread_catch_bad_alloc : bool
}.

(** What the rest of the process decides.  The Arbitrator and the other
    actors are not part of the file; their answers are read from here, at
    the time (in milliseconds on the thread's clock) the check asks.
    [fault_trial] is the draw of the Bernoulli distribution,
    [check_limit] the answer of the thread's tracker. *)
Record Env : Type := mkEnv {
  hard_mem_limit_exceeded : Z -> Z -> bool;
  cancelled_elsewhere : Z -> bool;
  fault_trial : bool;
  get_stack_trace : string;
  process_limit_exceeded_errmsg_str : string;
  check_limit : Z -> Z -> Status
}.

(** Calls into collaborators that leave no value behind, in program
    order. *)
Inductive Event : Type :=
| EvLogInfo (text : string)
| EvLogStatus (code : ErrorCode) (text : string)
| EvCancelQuery (text : string)
| EvDisableWaitGc
| EvPrintLogProcessUsage
| EvPrintLogUsage (text : string).

(** What a check can change: the wait-eligibility bit and the
    cancellation mark of the owning query, the Arbitrator's
    [refresh_interval_memory_growth], the clock, and the calls made. *)
Record World : Type := mkWorld {
  wait_gc : bool;
  query_cancelled : bool;
  refresh_interval_memory_growth : Z;
  clock_ms : Z;
  trace : list Event
}.

(** ** A monad for state, [return;], [throw] and the loop's fuel *)

Inductive Res (A : Type) : Type :=
| Val (a : A)
| Ret
| Exn (code : ErrorCode) (text : string).

Arguments Val {A} a.
Arguments Ret {A}.
Arguments Exn {A} code text.

Definition M (A : Type) : Type := World -> option (Res A * World).

Definition ret {A} (a : A) : M A := fun w => Some (Val a, w).

Definition bind {A B} (m : M A) (k : A -> M B) : M B :=
  fun w =>
    match m w with
    | None => None
    | Some (Val a, w') => k a w'
    | Some (Ret, w') => Some (Ret, w')
    | Some (Exn c t, w') => Some (Exn c t, w')
    end.

Notation "x <- m ;; k" := (bind m (fun x => k))
  (at level 61, m at next level, right associativity).
Notation "m ;; k" := (bind m (fun _ => k))
  (at level 61, right associativity).

(** [return;] *)
Definition return_ {A} : M A := fun w => Some (Ret, w).

(** [throw doris::Exception(code, text)] *)
Definition throw {A} (code : ErrorCode) (text : string) : M A :=
  fun w => Some (Exn code text, w).

Definition out_of_fuel {A} : M A := fun _ => None.

Definition get : M World := fun w => Some (Val w, w).

Definition modify (f : World -> World) : M unit :=
  fun w => Some (Val tt, f w).

Definition when (b : bool) (m : M unit) : M unit :=
  if b then m else ret tt.

(** ** The collaborators *)

Definition emit (e : Event) (w : World) : World :=
  mkWorld (wait_gc w) (query_cancelled w)
          (refresh_interval_memory_growth w) (clock_ms w) (trace w ++ [e])%list.

Definition advance (ms : Z) (w : World) : World :=
  mkWorld (wait_gc w) (query_cancelled w)
          (refresh_interval_memory_growth w) (clock_ms w + ms) (trace w).

Definition wrap_int64 (z : Z) : Z :=
  (z + 2 ^ 63) mod 2 ^ 64 - 2 ^ 63.

Definition grow (size : Z) (w : World) : World :=
  mkWorld (wait_gc w) (query_cancelled w)
          (wrap_int64 (refresh_interval_memory_growth w + size))
          (clock_ms w) (trace w).

Definition set_query_cancelled (b : bool) (w : World) : World :=
  mkWorld (wait_gc w) b
          (refresh_interval_memory_growth w) (clock_ms w) (trace w).

Definition set_wait_gc (b : bool) (w : World) : World :=
  mkWorld b (query_cancelled w)
          (refresh_interval_memory_growth w) (clock_ms w) (trace w).

Definition log_info (text : string) : M unit := modify (emit (EvLogInfo text)).

Definition log_status (code : ErrorCode) (text : string) : M unit :=
  modify (emit (EvLogStatus code text)).

Definition print_log_process_usage : M unit :=
  modify (emit EvPrintLogProcessUsage).

Definition print_log_usage (text : string) : M unit :=
  modify (emit (EvPrintLogUsage text)).

(** [std::this_thread::sleep_for(std::chrono::milliseconds(ms))] *)
Definition sleep_for (ms : Z) : M unit := modify (advance ms).

(** [GlobalMemoryArbitrator::is_exceed_hard_mem_limit(size)]: defined
    outside this file, its answer is the environment's at the present
    time. *)
Definition is_exceed_hard_mem_limit (env : Env) (size : Z) : M bool :=
  fun w => Some (Val (hard_mem_limit_exceeded env (clock_ms w) size), w).

(** [GlobalMemoryArbitrator::refresh_interval_memory_growth += size].
    The counter is declared outside this file; it is taken to be the
    signed 64-bit atomic its name and use suggest, whose addition wraps. *)
Definition add_refresh_interval_memory_growth (size : Z) : M unit :=
  modify (grow size).

(** Modelled from the spec: [ThreadMemTrackerMgr::is_query_cancelled] is
    defined outside this file; the Tracker exposes "a cancellation flag".
    The mark is shared: another actor may set it at any time, and the
    thread learns of that when it reads the flag.  This is what a read
    at the present time answers. *)
Definition query_is_cancelled (env : Env) (w : World) : bool :=
  query_cancelled w || cancelled_elsewhere env (clock_ms w).

(** Modelled from the spec: the call [is_query_cancelled()].
    [query_cancelled] is the mark as this thread has set or read it, so a
    mark set elsewhere enters the world at the read that sees it. *)
Definition is_query_cancelled (env : Env) : M bool :=
  fun w =>
    let seen := query_is_cancelled env w in
    Some (Val seen, set_query_cancelled seen w).

(** Modelled from the spec: [ThreadMemTrackerMgr::cancel_query] is
    defined outside this file; "a cancel-query action" that marks the
    owning query cancelled with a message. *)
Definition cancel_query (text : string) : M unit :=
  modify (fun w => emit (EvCancelQuery text) (set_query_cancelled true w)).

(** Modelled from the spec: [ThreadMemTrackerMgr::disable_wait_gc] is
    defined outside this file; it clears the "should wait for
    reclamation" policy bit ("disable further waiting for this
    context"). *)
Definition disable_wait_gc : M unit :=
  modify (fun w => emit EvDisableWaitGc (set_wait_gc false w)).

(** Modelled from the spec: [ThreadMemTrackerMgr::wait_gc] is defined
    outside this file; it reads that bit. *)
Definition get_wait_gc : M bool := fun w => Some (Val (wait_gc w), w).

(** ** Messages *)

Definition newline : string := String (Ascii.ascii_of_nat 10) EmptyString.

(** [{}] of an integer in [fmt::format]. *)
Definition fmt_int (z : Z) : string := NilZero.string_of_int (Z.to_int z).

Definition injection_err_msg (ctx : ThreadContext) : string :=
  "[MemAllocInjectFault] Query " ++ task_id ctx ++
  " alloc memory failed due to fault injection.".

Definition sys_err_msg (cfg : Config) (env : Env) (ctx : ThreadContext)
    (size : Z) : string :=
  let err_msg :=
    "Allocator sys memory check failed: Cannot alloc:" ++ fmt_int size ++
    ", consuming tracker:<" ++ tracker_label ctx ++
    ">, peak used " ++ fmt_int (peak_consumption ctx) ++
    ", current used " ++ fmt_int (consumption ctx) ++
    ", exec node:<" ++ last_consumer_tracker_label ctx ++
    ">, " ++ process_limit_exceeded_errmsg_str env ++ "." in
  if ((0 <? stacktrace_in_alloc_large_memory_bytes cfg)%Z &&
      (stacktrace_in_alloc_large_memory_bytes cfg <? size)%Z)%bool
  then err_msg ++ (newline ++ "Alloc Stacktrace:" ++ newline) ++ get_stack_trace env
  else err_msg.

Definition tracker_err_msg (st : Status) : string :=
  "Allocator mem tracker check failed, " ++ status_to_string st.

(** ** The checks *)

(** A call of a [void] function: a [return;] inside ends the callee
    only. *)
Definition call (m : M unit) : M unit :=
  fun w =>
    match m w with
    | Some (Ret, w') => Some (Val tt, w')
    | other => other
    end.

Section Checks.

Variable cfg : Config.
Variable env : Env.
Variable ctx : ThreadContext.

(** Lines 58-80: the fault-injection hook.  The asynchronous branch
    cancels and falls through to the hard-limit check. *)
Definition fault_injection : M unit :=
  when (negb (Qle_bool (mem_alloc_fault_probability cfg) 0))
    (when (fault_trial env)
       (let msg := injection_err_msg ctx in
        when (negb (enable_stacktrace cfg)) (log_status MEM_ALLOC_FAILED msg) ;;
        if negb (enable_thread_catch_bad_alloc ctx)
        then cancel_query msg
        else throw MEM_ALLOC_FAILED msg)).

(** Lines 118-131: the polling loop.  The value is [wait_milliseconds]
    when the loop is left by its condition or by [break].  The variable is
    an [int64_t]; it never passes the ceiling by 100 or more, so no
    wrap-around is written. *)
Fixpoint wait_for_gc (fuel : nat) (size : Z) (err_msg : string)
    (wait_milliseconds : Z) : M Z :=
  if (wait_milliseconds <? thread_wait_gc_max_milliseconds cfg)%Z then
    match fuel with
    | O => out_of_fuel
    | S fuel' =>
        sleep_for 100 ;;
        exceeded <- is_exceed_hard_mem_limit env size ;;
        if negb exceeded then
          add_refresh_interval_memory_growth size ;;
          ret wait_milliseconds
        else
          cancelled <- is_query_cancelled env ;;
          if cancelled then
            if enable_thread_catch_bad_alloc ctx
            then throw MEM_ALLOC_FAILED err_msg
            else return_
          else wait_for_gc fuel' size err_msg (wait_milliseconds + 100)
    end
  else ret wait_milliseconds.

Definition waiting_msg (err_msg : string) : string :=
  "Query:" ++ task_id ctx ++ " waiting for enough memory in thread id:" ++
  thread_id ctx ++ ", maximum " ++
  fmt_int (thread_wait_gc_max_milliseconds cfg) ++ "ms, " ++ err_msg ++ ".".

Definition canceled_asyn_msg (wait_milliseconds : Z) (err_msg : string) : string :=
  "Query:" ++ task_id ctx ++ " canceled asyn, after waiting for memory " ++
  fmt_int wait_milliseconds ++ "ms, " ++ err_msg ++ ".".

Definition throw_exception_msg (wait_milliseconds : Z) (err_msg : string) : string :=
  "Query:" ++ task_id ctx ++ " throw exception, after waiting for memory " ++
  fmt_int wait_milliseconds ++ "ms, " ++ err_msg ++ ".".

(** Lines 133-151: what follows the loop. *)
Definition wait_ceiling_reached (wait_milliseconds : Z) (err_msg : string) : M unit :=
  when (thread_wait_gc_max_milliseconds cfg <=? wait_milliseconds)%Z
    (disable_wait_gc ;;
     print_log_process_usage ;;
     if negb (enable_thread_catch_bad_alloc ctx) then
       log_info (canceled_asyn_msg wait_milliseconds err_msg) ;;
       cancel_query err_msg
     else
       log_info (throw_exception_msg wait_milliseconds err_msg) ;;
       throw MEM_ALLOC_FAILED err_msg).

(** Lines 82-160: the hard-limit test and what it leads to. *)
Definition hard_limit_check (fuel : nat) (size : Z) : M unit :=
  exceeded <- is_exceed_hard_mem_limit env size ;;
  when exceeded
    (let err_msg := sys_err_msg cfg env ctx size in
     cancelled <- is_query_cancelled env ;;
     if cancelled then
       if enable_thread_catch_bad_alloc ctx
       then throw MEM_ALLOC_FAILED err_msg
       else return_
     else
       eligible <- get_wait_gc ;;
       if is_attach_query ctx && eligible then
         log_info (waiting_msg err_msg) ;;
         wait_milliseconds <-
           (if negb (disable_memory_gc cfg)
            then wait_for_gc fuel size err_msg 0
            else ret 0) ;;
         wait_ceiling_reached wait_milliseconds err_msg
       else if enable_thread_catch_bad_alloc ctx then
         log_info ("sys memory check failed, throw exception, " ++ err_msg ++ ".") ;;
         print_log_process_usage ;;
         throw MEM_ALLOC_FAILED err_msg
       else
         log_info ("sys memory check failed, no throw exception, " ++ err_msg ++ ".")).

(** Lines 47-161. *)
Definition sys_memory_check_body (fuel : nat) (size : Z) : M unit :=
  if negb (skip_memory_check ctx =? 0)%Z then return_ else
  fault_injection ;;
  hard_limit_check fuel size.

Definition sys_memory_check (fuel : nat) (size : Z) : M unit :=
  call (sys_memory_check_body fuel size).

(** Lines 164-198. *)
Definition memory_tracker_check_body (size : Z) : M unit :=
  if negb (skip_memory_check ctx =? 0)%Z then return_ else
  w <- get ;;
  let st := check_limit env (clock_ms w) size in
  when (negb (status_ok st))
    (let err_msg := tracker_err_msg st in
     print_log_usage err_msg ;;
     if is_attach_query ctx then
       disable_wait_gc ;;
       if negb (enable_thread_catch_bad_alloc ctx) then
         log_info ("query/load:" ++ task_id ctx ++ " canceled asyn, " ++ err_msg ++ ".") ;;
         cancel_query err_msg
       else
         log_info ("query/load:" ++ task_id ctx ++ " throw exception, " ++ err_msg ++ ".") ;;
         throw MEM_ALLOC_FAILED err_msg
     else if enable_thread_catch_bad_alloc ctx then
       log_info ("memory tracker check failed, throw exception, " ++ err_msg ++ ".") ;;
       throw MEM_ALLOC_FAILED err_msg
     else
       log_info ("memory tracker check failed, no throw exception, " ++ err_msg ++ ".")).

Definition memory_tracker_check (size : Z) : M unit :=
  call (memory_tracker_check_body size).

(** Lines 201-205. *)
Definition memory_check (fuel : nat) (size : Z) : M unit :=
  sys_memory_check fuel size ;;
  memory_tracker_check size.

End Checks.

(** ** The decision of a check *)

(** Modelled from the spec: the checks are [void] functions, and the
    [Decision] of the admission controller is not a type of the code.
    An exception is [Fail] with its message; a normal return with the
    owning query marked cancelled, by this thread or as this thread has
    read it, is [Cancelled]; any other normal return is [Proceed]. *)
Inductive Decision : Type :=
| Proceed
| Cancelled
| Fail (text : string).

Definition decision (r : Res unit * World) : Decision :=
  match r with
  | (Exn _ text, _) => Fail text
  | (_, w') => if query_cancelled w' then Cancelled else Proceed
  end.

(** Modelled from the spec: [MemTrackerLimiter::check_limit] is defined
    outside this file; "ask the Tracker whether this allocation would
    exceed its own soft limit". *)
Definition soft_limit_check (limit consumed : Z) (size : Z) : Status :=
  if (limit <? consumed + size)%Z
  then StatusError MEM_LIMIT_EXCEEDED "memory limit exceeded"
  else StatusOK.

(** The fault-injection trial is drawn and fires. *)
Definition fault_fires (cfg : Config) (env : Env) : bool :=
  negb (Qle_bool (mem_alloc_fault_probability cfg) 0) && fault_trial env.

(** Iterations of the polling loop that are left when
    [wait_milliseconds] is [waited]. *)
Definition polls_left (cfg : Config) (waited : Z) : nat :=
  Z.to_nat ((thread_wait_gc_max_milliseconds cfg - waited + 99) / 100).

(** The [i]-th poll of a wait that starts in [w] happens [100 * i]
    milliseconds later; these are the answers it gets. *)
Definition poll_time (w : World) (i : nat) : Z :=
  clock_ms w + 100 * Z.of_nat i.

Definition poll_exceeded (env : Env) (size : Z) (w : World) (i : nat) : bool :=
  hard_mem_limit_exceeded env (poll_time w i) size.

Definition poll_cancelled (env : Env) (w : World) (i : nat) : bool :=
  query_cancelled w || cancelled_elsewhere env (poll_time w i).

(** The first [k] polls all find the limit exceeded and the query not
    cancelled. *)
Definition polls_blocked (env : Env) (size : Z) (w : World) (k : nat) : bool :=
  forallb (fun i => poll_exceeded env size w i && negb (poll_cancelled env w i))
          (seq 1 k).

(** The world in which the loop starts: line 112 has been logged. *)
Definition waiting_world (cfg : Config) (env : Env) (ctx : ThreadContext)
    (size : Z) (w : World) : World :=
  emit (EvLogInfo (waiting_msg cfg ctx (sys_err_msg cfg env ctx size))) w.

(** The world after [n] blocked polls and lines 135-136. *)
Definition ceiling_world (cfg : Config) (env : Env) (ctx : ThreadContext)
    (size : Z) (w : World) (n : nat) : World :=
  emit EvPrintLogProcessUsage
    (emit EvDisableWaitGc
       (set_wait_gc false
          (advance (100 * Z.of_nat n) (waiting_world cfg env ctx size w)))).

(** ** A process to try the checks on

    The process holds 950 of its 1000 bytes until [freed_at], 500 from
    then on; another actor cancels the query at [cancel_at]; the query's
    tracker holds 80 of its 100 bytes. *)
Module Scenario.

Definition cfg (probability : Q) (ceiling : Z) (gc_off : bool) : Config :=
  mkConfig probability false 0 ceiling gc_off.

Definition ctx (attached catch : bool) : ThreadContext :=
  mkThreadContext 0 "q1" "t7" "Query#Id=q1" 950 950 "scan" attached catch.

Definition since (at_ms : option Z) (t : Z) : bool :=
  match at_ms with
  | Some t0 => t0 <=? t
  | None => false
  end.

Definition process_used (freed_at : option Z) (t : Z) : Z :=
  if since freed_at t then 500 else 950.

Definition env (freed_at cancel_at : option Z) (fault : bool) : Env :=
  mkEnv (fun t size => 1000 <? process_used freed_at t + size)
        (since cancel_at)
        fault
        "#0 Allocator::alloc"
        "process memory used 950, limit 1000"
        (fun _ size => soft_limit_check 100 80 size).

Definition world : World := mkWorld true false 0 0 [].

End Scenario.

(** ** What a check may do to the world

    [frame catch size bound w w'] relates the world before a check to
    the world after it: the trace has only grown, and without a
    [cancel_query] when [catch] is set; the clock has advanced by a whole
    number of increments, at most [bound]; the growth counter is as it
    was or, after a sleep, has [size] added; waiting is not re-enabled
    and the cancellation mark is not cleared. *)
Definition frame (catch : bool) (size : Z) (bound : nat) (w w' : World) : Prop :=
  (exists said : list Event,
     trace w' = (trace w ++ said)%list /\
     (catch = true -> forall text, ~ In (EvCancelQuery text) said)) /\
  (exists n : nat,
     (n <= bound)%nat /\
     clock_ms w' = clock_ms w + 100 * Z.of_nat n /\
     (refresh_interval_memory_growth w' = refresh_interval_memory_growth w \/
      ((0 < n)%nat /\
       refresh_interval_memory_growth w'
       = wrap_int64 (refresh_interval_memory_growth w + size)))) /\
  (wait_gc w' = true -> wait_gc w = true) /\
  (query_cancelled w = true -> query_cancelled w' = true).

(** What a check may raise: [MEM_ALLOC_FAILED], in synchronous-unwind
    mode only, with one of the messages in [texts]. *)
Definition raises_within {A : Type} (catch : bool) (texts : string -> Prop)
    (r : Res A) : Prop :=
  forall code text, r = Exn code text ->
    catch = true /\ code = MEM_ALLOC_FAILED /\ texts text.

(** The messages of [memory_check]. *)
Definition check_texts (cfg : Config) (env : Env) (ctx : ThreadContext)
    (size : Z) (text : string) : Prop :=
  text = injection_err_msg ctx \/
  text = sys_err_msg cfg env ctx size \/
  exists t : Z, text = tracker_err_msg (check_limit env t size).

(** The context may wait for memory: lines 109-110 and 117. *)
Definition may_wait (cfg : Config) (ctx : ThreadContext) (w : World) : bool :=
  is_attach_query ctx && wait_gc w && negb (disable_memory_gc cfg).

(** ** The explicit instantiations

    Lines 264-291: the [template class Allocator<...>] declarations, in
    the order of the file. *)
Inductive MemoryAllocator : Type :=
| DefaultMemoryAllocator
| ORCMemoryAllocator
| RecordSizeMemoryAllocator.

Record Instantiation : Type := mkInstantiation {
  clear_memory_ : bool;
  mmap_populate : bool;
  use_mmap : bool;
  memory_allocator : MemoryAllocator
}.

Definition instantiations : list Instantiation :=
  [ mkInstantiation true true true DefaultMemoryAllocator;
    mkInstantiation true true false DefaultMemoryAllocator;
    mkInstantiation true false true DefaultMemoryAllocator;
    mkInstantiation true false false DefaultMemoryAllocator;
    mkInstantiation false true true DefaultMemoryAllocator;
    mkInstantiation false true false DefaultMemoryAllocator;
    mkInstantiation false false true DefaultMemoryAllocator;
    mkInstantiation false false false DefaultMemoryAllocator;
    mkInstantiation true true false ORCMemoryAllocator;
    mkInstantiation true false true ORCMemoryAllocator;
    mkInstantiation true false false ORCMemoryAllocator;
    mkInstantiation false true true ORCMemoryAllocator;
    mkInstantiation false true false ORCMemoryAllocator;
    mkInstantiation false false true ORCMemoryAllocator;
    mkInstantiation false false false ORCMemoryAllocator;
    mkInstantiation true true true RecordSizeMemoryAllocator;
    mkInstantiation true true false RecordSizeMemoryAllocator;
    mkInstantiation true false true RecordSizeMemoryAllocator;
    mkInstantiation true false false RecordSizeMemoryAllocator;
    mkInstantiation false true true RecordSizeMemoryAllocator;
    mkInstantiation false true false RecordSizeMemoryAllocator;
    mkInstantiation false false true RecordSizeMemoryAllocator;
    mkInstantiation false false false RecordSizeMemoryAllocator ].

Definition memory_allocator_eqb (a b : MemoryAllocator) : bool :=
  match a, b with
  | DefaultMemoryAllocator, DefaultMemoryAllocator => true
  | ORCMemoryAllocator, ORCMemoryAllocator => true
  | RecordSizeMemoryAllocator, RecordSizeMemoryAllocator => true
  | _, _ => false
  end.

Definition instantiation_eqb (i j : Instantiation) : bool :=
  Bool.eqb (clear_memory_ i) (clear_memory_ j) &&
  Bool.eqb (mmap_populate i) (mmap_populate j) &&
  Bool.eqb (use_mmap i) (use_mmap j) &&
  memory_allocator_eqb (memory_allocator i) (memory_allocator j).

(** The linker finds the members of [Allocator<...>] defined in this
    file exactly for the listed arguments. *)
Definition instantiated (i : Instantiation) : bool :=
  existsb (instantiation_eqb i) instantiations.

(** Unfolds the checks down to the loop and the pure tests. *)
Ltac run_check :=
  cbv [sys_memory_check memory_tracker_check memory_check call
       sys_memory_check_body hard_limit_check memory_tracker_check_body
       wait_ceiling_reached
       bind ret when throw return_ get modify
       log_info log_status print_log_process_usage print_log_usage
       is_exceed_hard_mem_limit is_query_cancelled cancel_query
       disable_wait_gc get_wait_gc sleep_for
       add_refresh_interval_memory_growth].

(** ** World bookkeeping *)

Lemma set_query_cancelled_same (w : World) (b : bool) :
  query_cancelled w = b -> set_query_cancelled b w = w.
Proof.
  intros <-. destruct w; reflexivity.
Qed.

Lemma wrap_int64_small (z : Z) :
  - 2 ^ 63 <= z < 2 ^ 63 -> wrap_int64 z = z.
Proof.
  intros H. unfold wrap_int64.
  rewrite Z.mod_small; lia.
Qed.

Lemma advance_0 (w : World) : advance 0 w = w.
Proof.
  destruct w; unfold advance; simpl. now rewrite Z.add_0_r.
Qed.

Lemma advance_advance (a b : Z) (w : World) :
  advance b (advance a w) = advance (a + b) w.
Proof.
  unfold advance; simpl. now rewrite Z.add_assoc.
Qed.

Lemma poll_time_advance (w : World) (i : nat) :
  poll_time (advance 100 w) i = poll_time w (S i).
Proof.
  unfold poll_time, advance; simpl clock_ms. lia.
Qed.

Lemma poll_time_0 (w : World) : poll_time w 0 = clock_ms w.
Proof.
  unfold poll_time. simpl. lia.
Qed.

Lemma polls_blocked_forall env size w k :
  polls_blocked env size w k = true <->
  forall i : nat, (1 <= i <= k)%nat ->
    poll_exceeded env size w i = true /\ poll_cancelled env w i = false.
Proof.
  unfold polls_blocked. rewrite forallb_forall. split.
  - intros H i Hi.
    specialize (H i ltac:(apply in_seq; lia)).
    apply andb_true_iff in H. destruct H as [Hex Hc].
    now apply negb_true_iff in Hc.
  - intros H i Hi. apply in_seq in Hi.
    destruct (H i ltac:(lia)) as [-> ->]. reflexivity.
Qed.

Lemma polls_blocked_first env size w k :
  polls_blocked env size w (S k) = true ->
  poll_exceeded env size w 1 = true /\ poll_cancelled env w 1 = false.
Proof.
  intros H. apply (proj1 (polls_blocked_forall env size w (S k)) H). lia.
Qed.

Lemma polls_blocked_advance env size w k :
  polls_blocked env size w (S k) = true ->
  polls_blocked env size (advance 100 w) k = true.
Proof.
  rewrite !polls_blocked_forall. intros H i Hi.
  unfold poll_exceeded, poll_cancelled.
  rewrite poll_time_advance.
  apply (H (S i)). lia.
Qed.

Lemma polls_left_done cfg waited :
  thread_wait_gc_max_milliseconds cfg <= waited -> polls_left cfg waited = 0%nat.
Proof.
  intros H. unfold polls_left.
  assert ((thread_wait_gc_max_milliseconds cfg - waited + 99) / 100 <= 0).
  { apply Z.lt_succ_r. apply Z.div_lt_upper_bound; lia. }
  lia.
Qed.

Lemma polls_left_step cfg waited :
  waited < thread_wait_gc_max_milliseconds cfg ->
  polls_left cfg waited = S (polls_left cfg (waited + 100)).
Proof.
  intros H. unfold polls_left.
  replace (thread_wait_gc_max_milliseconds cfg - waited + 99)
    with ((thread_wait_gc_max_milliseconds cfg - (waited + 100) + 99) + 1 * 100) by lia.
  rewrite Z.div_add by lia.
  assert (0 <= (thread_wait_gc_max_milliseconds cfg - (waited + 100) + 99) / 100).
  { apply Z.div_pos; lia. }
  lia.
Qed.

(** The loop sleeps less than one increment past a positive ceiling. *)
Lemma polls_left_bound cfg :
  100 * Z.of_nat (polls_left cfg 0) <= Z.max 0 (thread_wait_gc_max_milliseconds cfg + 99).
Proof.
  unfold polls_left. rewrite Z.sub_0_r.
  destruct (Z_lt_le_dec (thread_wait_gc_max_milliseconds cfg + 99) 0) as [Hn | Hp].
  - assert ((thread_wait_gc_max_milliseconds cfg + 99) / 100 < 0)
      by (apply Z.div_lt_upper_bound; lia).
    lia.
  - assert (0 <= (thread_wait_gc_max_milliseconds cfg + 99) / 100)
      by (apply Z.div_pos; lia).
    pose proof (Z.mul_div_le (thread_wait_gc_max_milliseconds cfg + 99) 100 ltac:(lia)).
    lia.
Qed.

(** ** The polling loop *)

Section Loop.

Variable cfg : Config.
Variable env : Env.
Variable ctx : ThreadContext.
Variable size : Z.
Variable err_msg : string.


Lemma wait_done fuel waited w :
  thread_wait_gc_max_milliseconds cfg <= waited ->
  wait_for_gc cfg env ctx fuel size err_msg waited w = Some (Val waited, w).
Proof.
  intros H. 
  destruct fuel; simpl;
    (replace (waited <? thread_wait_gc_max_milliseconds cfg) with false
       by (symmetry; apply Z.ltb_ge; exact H));
    reflexivity.
Qed.

Lemma wait_step_freed fuel waited w :
  waited < thread_wait_gc_max_milliseconds cfg ->
  poll_exceeded env size w 1 = false ->
  wait_for_gc cfg env ctx (S fuel) size err_msg waited w
  = Some (Val waited, grow size (advance 100 w)).
Proof.
  intros Hlt Hfree.  simpl.
  apply Z.ltb_lt in Hlt. rewrite Hlt.
  unfold poll_exceeded in Hfree. rewrite <- poll_time_advance, poll_time_0 in Hfree.
  cbv [bind sleep_for modify is_exceed_hard_mem_limit
       add_refresh_interval_memory_growth ret].
  rewrite Hfree. reflexivity.
Qed.

Lemma wait_step_cancelled fuel waited w :
  waited < thread_wait_gc_max_milliseconds cfg ->
  poll_exceeded env size w 1 = true ->
  poll_cancelled env w 1 = true ->
  wait_for_gc cfg env ctx (S fuel) size err_msg waited w
  = Some (if enable_thread_catch_bad_alloc ctx
          then Exn MEM_ALLOC_FAILED err_msg else Ret,
          set_query_cancelled true (advance 100 w)).
Proof.
  intros Hlt Hex Hc.  simpl.
  apply Z.ltb_lt in Hlt. rewrite Hlt.
  unfold poll_exceeded in Hex. unfold poll_cancelled in Hc.
  rewrite <- poll_time_advance, poll_time_0 in Hex, Hc.
  cbv [bind sleep_for modify is_exceed_hard_mem_limit is_query_cancelled
       query_is_cancelled throw return_].
  rewrite Hex. cbn [negb]. cbv beta iota.
  change (query_cancelled (advance 100 w)) with (query_cancelled w).
  rewrite Hc.
  destruct (enable_thread_catch_bad_alloc ctx); reflexivity.
Qed.

Lemma wait_step_blocked fuel waited w :
  waited < thread_wait_gc_max_milliseconds cfg ->
  poll_exceeded env size w 1 = true ->
  poll_cancelled env w 1 = false ->
  wait_for_gc cfg env ctx (S fuel) size err_msg waited w
  = wait_for_gc cfg env ctx fuel size err_msg (waited + 100) (advance 100 w).
Proof.
  intros Hlt Hex Hc.  simpl.
  apply Z.ltb_lt in Hlt. rewrite Hlt.
  unfold poll_exceeded in Hex. unfold poll_cancelled in Hc.
  rewrite <- poll_time_advance, poll_time_0 in Hex, Hc.
  cbv [bind sleep_for modify is_exceed_hard_mem_limit is_query_cancelled
       query_is_cancelled].
  rewrite Hex. cbn [negb]. cbv beta iota.
  change (query_cancelled (advance 100 w)) with (query_cancelled w).
  rewrite Hc.
  rewrite set_query_cancelled_same; [reflexivity |].
  apply orb_false_iff in Hc. apply Hc.
Qed.

(** [k] blocked polls are [k] turns of the loop. *)
Lemma wait_blocked_polls k : forall fuel waited w,
  polls_blocked env size w k = true ->
  ((0 < k)%nat ->
   waited + 100 * Z.of_nat k < thread_wait_gc_max_milliseconds cfg + 100) ->
  wait_for_gc cfg env ctx (k + fuel) size err_msg waited w
  = wait_for_gc cfg env ctx fuel size err_msg (waited + 100 * Z.of_nat k)
         (advance (100 * Z.of_nat k) w).
Proof.
  induction k as [| k IH]; intros fuel waited w Hb Hlt.
  - simpl. now rewrite Z.add_0_r, advance_0.
  - destruct (polls_blocked_first env size w k Hb) as [Hex Hc].
    change (S k + fuel)%nat with (S (k + fuel)).
    rewrite wait_step_blocked by (auto; lia).
    rewrite IH by (auto using polls_blocked_advance; lia).
    rewrite advance_advance. f_equal; [lia | f_equal; lia].
Qed.

(** With fuel for the polls that are left the loop ends, having slept a
    whole number of increments and touched nothing but the clock, the
    cancellation mark and the growth counter. *)
Lemma wait_total fuel : forall waited w,
  (polls_left cfg waited <= fuel)%nat ->
  exists (n : nat) (r : Res Z) (w' : World),
    wait_for_gc cfg env ctx fuel size err_msg waited w = Some (r, w') /\
    (n <= polls_left cfg waited)%nat /\
    clock_ms w' = clock_ms w + 100 * Z.of_nat n /\
    wait_gc w' = wait_gc w /\
    trace w' = trace w /\
    forall code text, r = Exn code text -> code = MEM_ALLOC_FAILED.
Proof.
  induction fuel as [| fuel IH]; intros waited w Hfuel.
  - exists 0%nat, (Val waited), w.
    destruct (Z_lt_le_dec waited (thread_wait_gc_max_milliseconds cfg)) as [Hlt | Hge].
    + rewrite (polls_left_step cfg waited Hlt) in Hfuel. lia.
    + rewrite wait_done by assumption.
      repeat split; simpl; try lia; discriminate.
  - destruct (Z_lt_le_dec waited (thread_wait_gc_max_milliseconds cfg)) as [Hlt | Hge].
    2:{ exists 0%nat, (Val waited), w. rewrite wait_done by assumption.
        repeat split; simpl; try lia; discriminate. }
    pose proof (polls_left_step cfg waited Hlt) as Hstep.
    destruct (poll_exceeded env size w 1) eqn:Hex.
    2:{ exists 1%nat, (Val waited), (grow size (advance 100 w)).
        rewrite wait_step_freed by assumption.
        repeat split; simpl; try lia; discriminate. }
    destruct (poll_cancelled env w 1) eqn:Hc.
    { eexists 1%nat, _, _.
      rewrite wait_step_cancelled by assumption.
      repeat split; simpl; try lia.
      destruct (enable_thread_catch_bad_alloc ctx); congruence. }
    rewrite wait_step_blocked by assumption.
    destruct (IH (waited + 100) (advance 100 w))
      as (n & r & w' & Hrun & Hn & Hclk & Hwg & Htr & Hcode);
      [lia |].
    exists (S n), r, w'. rewrite Hrun.
    repeat split; try assumption; [lia |].
    rewrite Hclk. simpl clock_ms. lia.
Qed.

End Loop.

(** ** The hard-limit check *)

Section HardLimit.

Variable cfg : Config.
Variable env : Env.
Variable ctx : ThreadContext.

Lemma fault_injection_quiet w :
  fault_fires cfg env = false ->
  fault_injection cfg env ctx w = Some (Val tt, w).
Proof.
  unfold fault_fires, fault_injection, when, ret.
  destruct (negb (Qle_bool (mem_alloc_fault_probability cfg) 0)); simpl;
    [intros -> |]; reflexivity.
Qed.

(** Up to the hard-limit test nothing happens when the bypass is off and
    no fault is injected. *)
Lemma sys_check_entry fuel size w :
  skip_memory_check ctx = 0 ->
  fault_fires cfg env = false ->
  sys_memory_check_body cfg env ctx fuel size w
  = hard_limit_check cfg env ctx fuel size w.
Proof.
  intros Hskip Hfault. unfold sys_memory_check_body.
  rewrite Hskip. cbn [Z.eqb negb].
  unfold bind at 1. now rewrite fault_injection_quiet.
Qed.

(** The hard limit is not exceeded: the check returns at once. *)
Lemma sys_check_within_limit fuel size w :
  skip_memory_check ctx = 0 ->
  fault_fires cfg env = false ->
  hard_mem_limit_exceeded env (clock_ms w) size = false ->
  sys_memory_check cfg env ctx fuel size w = Some (Val tt, w).
Proof.
  intros Hskip Hfault Hex. unfold sys_memory_check, call.
  rewrite sys_check_entry by assumption.
  run_check. now rewrite Hex.
Qed.

(** The query is already cancelled when the limit is found exceeded:
    lines 102-107. *)
Lemma sys_check_already_cancelled fuel size w :
  skip_memory_check ctx = 0 ->
  fault_fires cfg env = false ->
  hard_mem_limit_exceeded env (clock_ms w) size = true ->
  query_is_cancelled env w = true ->
  sys_memory_check cfg env ctx fuel size w
  = Some (if enable_thread_catch_bad_alloc ctx
          then Exn MEM_ALLOC_FAILED (sys_err_msg cfg env ctx size)
          else Val tt,
          set_query_cancelled true w).
Proof.
  intros Hskip Hfault Hex Hc. unfold sys_memory_check, call.
  rewrite sys_check_entry by assumption.
  run_check. rewrite Hex, Hc.
  destruct (enable_thread_catch_bad_alloc ctx); reflexivity.
Qed.

(** The limit is exceeded, the query is not cancelled and the context may
    not wait: lines 153-159. *)
Lemma sys_check_no_wait fuel size w :
  skip_memory_check ctx = 0 ->
  fault_fires cfg env = false ->
  hard_mem_limit_exceeded env (clock_ms w) size = true ->
  query_is_cancelled env w = false ->
  is_attach_query ctx && wait_gc w = false ->
  sys_memory_check cfg env ctx fuel size w
  = if enable_thread_catch_bad_alloc ctx
    then Some (Exn MEM_ALLOC_FAILED (sys_err_msg cfg env ctx size),
               emit EvPrintLogProcessUsage
                 (emit (EvLogInfo ("sys memory check failed, throw exception, " ++
                                   sys_err_msg cfg env ctx size ++ ".")) w))
    else Some (Val tt,
               emit (EvLogInfo ("sys memory check failed, no throw exception, " ++
                                sys_err_msg cfg env ctx size ++ ".")) w).
Proof.
  intros Hskip Hfault Hex Hc Hel. unfold sys_memory_check, call.
  rewrite sys_check_entry by assumption.
  run_check. rewrite Hex, Hc.
  rewrite set_query_cancelled_same
    by (unfold query_is_cancelled in Hc; now apply orb_false_iff in Hc).
  rewrite Hel.
  destruct (enable_thread_catch_bad_alloc ctx); reflexivity.
Qed.

(** The limit is exceeded, the query is not cancelled and the context may
    wait: what is left is the loop and what follows it. *)
Lemma sys_check_wait fuel size w :
  skip_memory_check ctx = 0 ->
  fault_fires cfg env = false ->
  hard_mem_limit_exceeded env (clock_ms w) size = true ->
  query_is_cancelled env w = false ->
  is_attach_query ctx = true ->
  wait_gc w = true ->
  sys_memory_check cfg env ctx fuel size w
  = call (wait_milliseconds <-
            (if negb (disable_memory_gc cfg)
             then wait_for_gc cfg env ctx fuel size (sys_err_msg cfg env ctx size) 0
             else ret 0) ;;
          wait_ceiling_reached cfg ctx wait_milliseconds (sys_err_msg cfg env ctx size))
      (emit (EvLogInfo (waiting_msg cfg ctx (sys_err_msg cfg env ctx size))) w).
Proof.
  intros Hskip Hfault Hex Hc Hat Hwg. unfold sys_memory_check, call.
  rewrite sys_check_entry by assumption.
  cbv [hard_limit_check bind when is_exceed_hard_mem_limit
       is_query_cancelled get_wait_gc log_info modify].
  rewrite Hex, Hc.
  rewrite set_query_cancelled_same
    by (unfold query_is_cancelled in Hc; now apply orb_false_iff in Hc).
  rewrite Hat, Hwg. reflexivity.
Qed.

End HardLimit.

(** ** Waiting for memory *)

Lemma poll_time_advance_polls (w : World) (k i : nat) :
  poll_time (advance (100 * Z.of_nat k) w) i = poll_time w (k + i).
Proof.
  unfold poll_time. cbn [advance clock_ms]. lia.
Qed.

Lemma not_cancelled_mark env w :
  query_is_cancelled env w = false -> query_cancelled w = false.
Proof.
  unfold query_is_cancelled. intros H. now apply orb_false_iff in H.
Qed.

Section Waiting.

Variable cfg : Config.
Variable env : Env.
Variable ctx : ThreadContext.
Variable fuel : nat.
Variable size : Z.
Variable w : World.

Hypothesis Hskip : skip_memory_check ctx = 0.
Hypothesis Hfault : fault_fires cfg env = false.
Hypothesis Hexceeded : hard_mem_limit_exceeded env (clock_ms w) size = true.
Hypothesis Hlive : query_is_cancelled env w = false.
Hypothesis Hattached : is_attach_query ctx = true.
Hypothesis Heligible : wait_gc w = true.

(** [k] blocked polls, then one that finds the limit satisfied. *)
Lemma sys_check_freed (k : nat) :
  disable_memory_gc cfg = false ->
  100 * Z.of_nat k < thread_wait_gc_max_milliseconds cfg ->
  polls_blocked env size w k = true ->
  poll_exceeded env size w (S k) = false ->
  (k < fuel)%nat ->
  sys_memory_check cfg env ctx fuel size w
  = Some (Val tt, grow size (advance (100 * Z.of_nat (S k)) (waiting_world cfg env ctx size w))).
Proof.
  intros Hgc Hk Hblocked Hfree Hfuel.
  rewrite sys_check_wait by assumption.
  rewrite Hgc. cbn [negb]. unfold call, bind.
  replace fuel with (k + S (fuel - S k))%nat by lia.
  rewrite wait_blocked_polls by (assumption || (intros; lia)).
  rewrite wait_step_freed.
  - unfold wait_ceiling_reached, when, ret.
    replace (thread_wait_gc_max_milliseconds cfg <=? 0 + 100 * Z.of_nat k)
      with false by (symmetry; apply Z.leb_gt; lia).
    rewrite advance_advance.
    replace (100 * Z.of_nat k + 100) with (100 * Z.of_nat (S k)) by lia.
    reflexivity.
  - lia.
  - unfold poll_exceeded. rewrite poll_time_advance_polls.
    replace (k + 1)%nat with (S k) by lia. exact Hfree.
Qed.

(** [k] blocked polls, then one that finds the query cancelled. *)
Lemma sys_check_cancelled_in_wait (k : nat) :
  disable_memory_gc cfg = false ->
  100 * Z.of_nat k < thread_wait_gc_max_milliseconds cfg ->
  polls_blocked env size w k = true ->
  poll_exceeded env size w (S k) = true ->
  poll_cancelled env w (S k) = true ->
  (k < fuel)%nat ->
  sys_memory_check cfg env ctx fuel size w
  = Some (if enable_thread_catch_bad_alloc ctx
          then Exn MEM_ALLOC_FAILED (sys_err_msg cfg env ctx size)
          else Val tt,
          set_query_cancelled true (advance (100 * Z.of_nat (S k)) (waiting_world cfg env ctx size w))).
Proof.
  intros Hgc Hk Hblocked Hex Hc Hfuel.
  rewrite sys_check_wait by assumption.
  rewrite Hgc. cbn [negb]. unfold call, bind.
  replace fuel with (k + S (fuel - S k))%nat by lia.
  rewrite wait_blocked_polls by (assumption || (intros; lia)).
  rewrite wait_step_cancelled.
  - rewrite advance_advance.
    replace (100 * Z.of_nat k + 100) with (100 * Z.of_nat (S k)) by lia.
    destruct (enable_thread_catch_bad_alloc ctx); reflexivity.
  - lia.
  - unfold poll_exceeded. rewrite poll_time_advance_polls.
    replace (k + 1)%nat with (S k) by lia. exact Hex.
  - unfold poll_cancelled. rewrite poll_time_advance_polls.
    replace (k + 1)%nat with (S k) by lia. exact Hc.
Qed.

(** Every poll the ceiling allows is blocked. *)
Lemma sys_check_ceiling :
  disable_memory_gc cfg = false \/ thread_wait_gc_max_milliseconds cfg <= 0 ->
  polls_blocked env size w (polls_left cfg 0) = true ->
  (polls_left cfg 0 <= fuel)%nat ->
  sys_memory_check cfg env ctx fuel size w
  = if enable_thread_catch_bad_alloc ctx
    then Some (Exn MEM_ALLOC_FAILED (sys_err_msg cfg env ctx size),
               emit (EvLogInfo (throw_exception_msg ctx
                                  (100 * Z.of_nat (polls_left cfg 0))
                                  (sys_err_msg cfg env ctx size)))
                 (ceiling_world cfg env ctx size w (polls_left cfg 0)))
    else Some (Val tt,
               emit (EvCancelQuery (sys_err_msg cfg env ctx size))
                 (set_query_cancelled true
                    (emit (EvLogInfo (canceled_asyn_msg ctx
                                        (100 * Z.of_nat (polls_left cfg 0))
                                        (sys_err_msg cfg env ctx size)))
                       (ceiling_world cfg env ctx size w (polls_left cfg 0))))).
Proof.
  intros Hgc Hblocked Hfuel.
  rewrite sys_check_wait by assumption.
  assert (Hloop :
    (if negb (disable_memory_gc cfg)
     then wait_for_gc cfg env ctx fuel size (sys_err_msg cfg env ctx size) 0
     else ret 0) (waiting_world cfg env ctx size w)
    = Some (Val (100 * Z.of_nat (polls_left cfg 0)),
            advance (100 * Z.of_nat (polls_left cfg 0)) (waiting_world cfg env ctx size w))).
  { destruct (disable_memory_gc cfg) eqn:Hoff; cbn [negb].
    - destruct Hgc as [Hgc | Hgc]; [discriminate |].
      rewrite (polls_left_done cfg 0 Hgc). simpl Z.of_nat.
      now rewrite advance_0.
    - replace fuel with (polls_left cfg 0 + (fuel - polls_left cfg 0))%nat by lia.
      rewrite wait_blocked_polls.
      + rewrite wait_done; [reflexivity |].
        unfold polls_left. rewrite Z.sub_0_r.
        pose proof (Z.mul_succ_div_gt (thread_wait_gc_max_milliseconds cfg + 99) 100 ltac:(lia)).
        lia.
      + exact Hblocked.
      + intros Hpos. pose proof (polls_left_bound cfg). lia. }
  unfold waiting_world in Hloop. unfold call, bind. rewrite Hloop.
  unfold wait_ceiling_reached, when.
  replace (thread_wait_gc_max_milliseconds cfg <=? 100 * Z.of_nat (polls_left cfg 0))
    with true.
  - run_check.
    destruct (enable_thread_catch_bad_alloc ctx); reflexivity.
  - symmetry. apply Z.leb_le.
    unfold polls_left. rewrite Z.sub_0_r.
    pose proof (Z.mul_succ_div_gt (thread_wait_gc_max_milliseconds cfg + 99) 100 ltac:(lia)).
    lia.
Qed.

End Waiting.

(** ** Every check ends *)

Section Totality.

Variable cfg : Config.
Variable env : Env.
Variable ctx : ThreadContext.

Lemma fault_injection_total w :
  exists (r : Res unit) (w1 : World),
    fault_injection cfg env ctx w = Some (r, w1) /\
    clock_ms w1 = clock_ms w /\
    wait_gc w1 = wait_gc w /\
    (r = Val tt \/ r = Exn MEM_ALLOC_FAILED (injection_err_msg ctx)).
Proof.
  unfold fault_injection. run_check.
  destruct (negb (Qle_bool (mem_alloc_fault_probability cfg) 0));
    destruct (fault_trial env);
    destruct (negb (enable_stacktrace cfg));
    destruct (negb (enable_thread_catch_bad_alloc ctx));
    eexists _, _; (split; [reflexivity |]); simpl; auto.
Qed.

(** With fuel for every poll the ceiling allows, the hard-limit part
    ends after a whole number of sleeps, at most that many. *)
Lemma hard_limit_total fuel size w :
  (polls_left cfg 0 <= fuel)%nat ->
  exists (n : nat) (r : Res unit) (w' : World),
    hard_limit_check cfg env ctx fuel size w = Some (r, w') /\
    (n <= polls_left cfg 0)%nat /\
    clock_ms w' = clock_ms w + 100 * Z.of_nat n /\
    forall code text, r = Exn code text -> code = MEM_ALLOC_FAILED.
Proof.
  intros Hfuel. unfold hard_limit_check.
  cbv [bind when is_exceed_hard_mem_limit is_query_cancelled get_wait_gc
       log_info modify throw return_ ret print_log_process_usage].
  destruct (hard_mem_limit_exceeded env (clock_ms w) size);
    [| exists 0%nat; eexists _, _; split; [reflexivity |];
       repeat split; simpl; try lia; discriminate].
  destruct (query_is_cancelled env w).
  { exists 0%nat.
    destruct (enable_thread_catch_bad_alloc ctx); eexists _, _;
      (split; [reflexivity |]); repeat split; simpl; try lia;
      congruence. }
  cbn [wait_gc set_query_cancelled].
  destruct (is_attach_query ctx && wait_gc w).
  2:{ exists 0%nat.
      destruct (enable_thread_catch_bad_alloc ctx); eexists _, _;
        (split; [reflexivity |]); repeat split; simpl; try lia;
        congruence. }
  match goal with
  | |- context [(if negb (disable_memory_gc cfg) then ?l else ?e) ?w0] =>
      assert (Hloop : exists (n : nat) (r : Res Z) (w1 : World),
                 (if negb (disable_memory_gc cfg) then l else e) w0
                 = Some (r, w1) /\
                 (n <= polls_left cfg 0)%nat /\
                 clock_ms w1 = clock_ms w + 100 * Z.of_nat n /\
                 forall code text, r = Exn code text -> code = MEM_ALLOC_FAILED)
  end.
  { destruct (disable_memory_gc cfg); cbn [negb].
    - exists 0%nat. eexists _, _. split; [reflexivity |].
      repeat split; simpl; try lia; discriminate.
    - match goal with
      | |- context [wait_for_gc _ _ _ _ _ ?m _ ?w0] =>
          destruct (wait_total cfg env ctx size m fuel 0 w0 Hfuel)
            as (n & r & w1 & Hrun & Hn & Hclk & _ & _ & Hcode);
          exists n, r, w1; rewrite Hrun; repeat split; auto
      end. }
  destruct Hloop as (n & r & w1 & Hrun & Hn & Hclk & Hcode).
  rewrite Hrun. exists n.
  destruct r as [v | | code text].
  - unfold wait_ceiling_reached. run_check.
    destruct (thread_wait_gc_max_milliseconds cfg <=? v);
      destruct (negb (enable_thread_catch_bad_alloc ctx));
      eexists _, _; (split; [reflexivity |]); repeat split; simpl;
      try assumption; congruence.
  - eexists _, _. split; [reflexivity |]. repeat split; auto. discriminate.
  - eexists _, _. split; [reflexivity |]. repeat split; auto.
    intros c t [= -> _]. eauto.
Qed.

(** A context that may not wait never sleeps, whatever the fuel. *)
Lemma hard_limit_no_wait fuel size w :
  wait_gc w = false ->
  exists (r : Res unit) (w' : World),
    hard_limit_check cfg env ctx fuel size w = Some (r, w') /\
    clock_ms w' = clock_ms w /\
    wait_gc w' = false.
Proof.
  intros Hwg. unfold hard_limit_check.
  cbv [bind when is_exceed_hard_mem_limit is_query_cancelled get_wait_gc
       log_info modify throw return_ ret print_log_process_usage].
  destruct (hard_mem_limit_exceeded env (clock_ms w) size);
    [| eexists _, _; split; [reflexivity |]; auto].
  destruct (query_is_cancelled env w).
  { destruct (enable_thread_catch_bad_alloc ctx); eexists _, _;
      (split; [reflexivity |]); auto. }
  cbn [wait_gc set_query_cancelled]. rewrite Hwg, andb_false_r.
  destruct (enable_thread_catch_bad_alloc ctx); eexists _, _;
    (split; [reflexivity |]); auto.
Qed.

(** [sys_memory_check] ends, by a normal return or by raising
    [MEM_ALLOC_FAILED], after at most [polls_left cfg 0] sleeps. *)
Lemma sys_check_total fuel size w :
  (polls_left cfg 0 <= fuel)%nat ->
  exists (n : nat) (r : Res unit) (w' : World),
    sys_memory_check cfg env ctx fuel size w = Some (r, w') /\
    (n <= polls_left cfg 0)%nat /\
    clock_ms w' = clock_ms w + 100 * Z.of_nat n /\
    (r = Val tt \/ exists text, r = Exn MEM_ALLOC_FAILED text).
Proof.
  intros Hfuel. unfold sys_memory_check, call, sys_memory_check_body.
  destruct (negb (skip_memory_check ctx =? 0)).
  { exists 0%nat. eexists _, _. split; [reflexivity |].
    repeat split; simpl; try lia; auto. }
  unfold bind at 1.
  destruct (fault_injection_total w) as (r0 & w1 & -> & Hclk1 & _ & [-> | ->]).
  2:{ exists 0%nat. eexists _, _. split; [reflexivity |].
      repeat split; simpl; try lia; eauto. }
  destruct (hard_limit_total fuel size w1 Hfuel)
    as (n & r & w' & -> & Hn & Hclk & Hcode).
  exists n.
  destruct r as [[] | | code text]; eexists _, _;
    (split; [reflexivity |]); repeat split; try lia; auto.
  right. exists text. now rewrite (Hcode code text eq_refl).
Qed.

Lemma sys_check_without_wait_gc fuel size w :
  wait_gc w = false ->
  exists (r : Res unit) (w' : World),
    sys_memory_check cfg env ctx fuel size w = Some (r, w') /\
    clock_ms w' = clock_ms w /\
    wait_gc w' = false.
Proof.
  intros Hwg. unfold sys_memory_check, call, sys_memory_check_body.
  destruct (negb (skip_memory_check ctx =? 0)).
  { eexists _, _. split; [reflexivity |]. auto. }
  unfold bind at 1.
  destruct (fault_injection_total w) as (r0 & w1 & -> & Hclk1 & Hwg1 & [-> | ->]).
  2:{ eexists _, _. split; [reflexivity |]. split; congruence. }
  destruct (hard_limit_no_wait fuel size w1 ltac:(congruence))
    as (r & w' & -> & Hclk & Hwg').
  destruct r; eexists _, _; (split; [reflexivity |]); split; congruence.
Qed.

End Totality.

(** ** The two checks in sequence *)

(** 10 bytes fit the process and the query: nothing happens. *)
Example memory_check_admits :
  memory_check (Scenario.cfg 0 1000 false) (Scenario.env None None false)
    (Scenario.ctx true false) 0 10 Scenario.world
  = Some (Val tt, Scenario.world).
Proof.
  reflexivity.
Qed.

(** 30 bytes fit the process but not the query, which holds 80 of its
    100: the soft-limit check cancels the query, in asynchronous mode,
    without a look at the process. *)
Example memory_check_soft_limit :
  exists w' : World,
    memory_check (Scenario.cfg 0 1000 false) (Scenario.env None None false)
      (Scenario.ctx true false) 0 30 Scenario.world = Some (Val tt, w') /\
    decision (Val tt, w') = Cancelled /\
    wait_gc w' = false /\
    clock_ms w' = 0.
Proof.
  eexists. split; [reflexivity |]. repeat split.
Qed.

(** ** The admission decisions *)

(** C1, as the code has it.  When the hard limit is exceeded and the
    context is not both query-attached and wait-eligible, the check
    resolves at once, without sleeping and without cancelling the query:
    in synchronous-unwind mode it raises [Fail] with the descriptive
    message; in asynchronous mode it returns normally, which is
    [Cancelled] only if the query was cancelled already and is otherwise
    [Proceed] after one log line. *)
Theorem hard_limit_without_wait_resolves cfg env ctx fuel size w :
  skip_memory_check ctx = 0 ->
  fault_fires cfg env = false ->
  hard_mem_limit_exceeded env (clock_ms w) size = true ->
  is_attach_query ctx && wait_gc w = false ->
  exists (r : Res unit) (w' : World) (said : list Event),
    sys_memory_check cfg env ctx fuel size w = Some (r, w') /\
    r = (if enable_thread_catch_bad_alloc ctx
         then Exn MEM_ALLOC_FAILED (sys_err_msg cfg env ctx size)
         else Val tt) /\
    decision (r, w')
    = (if enable_thread_catch_bad_alloc ctx
       then Fail (sys_err_msg cfg env ctx size)
       else if query_is_cancelled env w then Cancelled else Proceed) /\
    clock_ms w' = clock_ms w /\
    wait_gc w' = wait_gc w /\
    query_cancelled w' = query_is_cancelled env w /\
    trace w' = (trace w ++ said)%list /\
    forall text, ~ In (EvCancelQuery text) said.
Proof.
  intros Hskip Hfault Hex Hel.
  destruct (query_is_cancelled env w) eqn:Hc.
  - exists (if enable_thread_catch_bad_alloc ctx
            then Exn MEM_ALLOC_FAILED (sys_err_msg cfg env ctx size)
            else Val tt), (set_query_cancelled true w), [].
    rewrite sys_check_already_cancelled by assumption.
    rewrite app_nil_r.
    destruct (enable_thread_catch_bad_alloc ctx); repeat split; auto.
  - rewrite sys_check_no_wait by assumption.
    assert (Hq : query_cancelled w = false)
      by (unfold query_is_cancelled in Hc; now apply orb_false_iff in Hc).
    destruct (enable_thread_catch_bad_alloc ctx).
    + eexists _, _, [_; _]. split; [reflexivity |].
      repeat split; simpl; auto.
      * now rewrite <- app_assoc.
      * intros text [H | [H | []]]; discriminate.
    + eexists _, _, [_]. split; [reflexivity |].
      repeat split; simpl; auto.
      * now rewrite Hq.
      * intros text [H | []]; discriminate.
Qed.

Lemma hard_limit_without_wait_resolves_witness :
  exists (r : Res unit) (w' : World) (said : list Event),
    sys_memory_check (Scenario.cfg 0 1000 false) (Scenario.env None None false)
      (Scenario.ctx false true) 0 200 Scenario.world = Some (r, w') /\
    r = Exn MEM_ALLOC_FAILED
          (sys_err_msg (Scenario.cfg 0 1000 false) (Scenario.env None None false)
             (Scenario.ctx false true) 200) /\
    decision (r, w')
    = Fail (sys_err_msg (Scenario.cfg 0 1000 false) (Scenario.env None None false)
              (Scenario.ctx false true) 200) /\
    clock_ms w' = 0 /\
    wait_gc w' = true /\
    query_cancelled w' = false /\
    trace w' = said /\
    forall text, ~ In (EvCancelQuery text) said.
Proof.
  apply (hard_limit_without_wait_resolves
           (Scenario.cfg 0 1000 false) (Scenario.env None None false)
           (Scenario.ctx false true) 0 200 Scenario.world);
    reflexivity.
Defined.

(** C1 fails in asynchronous mode: an unattached context over the hard
    limit is let through, the query is not cancelled. *)
Lemma hard_limit_without_wait_async_proceeds :
  hard_mem_limit_exceeded (Scenario.env None None false) 0 200 = true /\
  is_attach_query (Scenario.ctx false false) && wait_gc Scenario.world = false /\
  enable_thread_catch_bad_alloc (Scenario.ctx false false) = false /\
  exists w' : World,
    sys_memory_check (Scenario.cfg 0 1000 false) (Scenario.env None None false)
      (Scenario.ctx false false) 0 200 Scenario.world = Some (Val tt, w') /\
    query_cancelled w' = false /\
    decision (Val tt, w') = Proceed /\
    decision (Val tt, w') <> Cancelled /\
    forall text, decision (Val tt, w') <> Fail text.
Proof.
  repeat split; try reflexivity.
  eexists. split; [reflexivity |].
  repeat split; try reflexivity; intros; discriminate.
Qed.

(** C3, as the code has it.  When the request exceeds the hard limit and
    the query is found cancelled already, the check stops there: no
    sleep, no log line, no second cancel.  In asynchronous mode it
    returns, which is [Cancelled]; in synchronous-unwind mode it raises
    [Fail] with the descriptive message. *)
Theorem already_cancelled_short_circuit cfg env ctx fuel size w :
  skip_memory_check ctx = 0 ->
  fault_fires cfg env = false ->
  hard_mem_limit_exceeded env (clock_ms w) size = true ->
  query_is_cancelled env w = true ->
  exists (r : Res unit) (w' : World),
    sys_memory_check cfg env ctx fuel size w = Some (r, w') /\
    r = (if enable_thread_catch_bad_alloc ctx
         then Exn MEM_ALLOC_FAILED (sys_err_msg cfg env ctx size)
         else Val tt) /\
    decision (r, w')
    = (if enable_thread_catch_bad_alloc ctx
       then Fail (sys_err_msg cfg env ctx size)
       else Cancelled) /\
    clock_ms w' = clock_ms w /\
    trace w' = trace w /\
    wait_gc w' = wait_gc w /\
    refresh_interval_memory_growth w' = refresh_interval_memory_growth w.
Proof.
  intros Hskip Hfault Hex Hc.
  rewrite sys_check_already_cancelled by assumption.
  eexists _, _. split; [reflexivity |].
  destruct (enable_thread_catch_bad_alloc ctx); repeat split.
Qed.

Lemma already_cancelled_short_circuit_witness :
  exists (r : Res unit) (w' : World),
    sys_memory_check (Scenario.cfg 0 1000 false) (Scenario.env None (Some 0) false)
      (Scenario.ctx true false) 0 200 Scenario.world = Some (r, w') /\
    r = Val tt /\
    decision (r, w') = Cancelled /\
    clock_ms w' = 0 /\
    trace w' = [] /\
    wait_gc w' = true /\
    refresh_interval_memory_growth w' = 0.
Proof.
  apply (already_cancelled_short_circuit
           (Scenario.cfg 0 1000 false) (Scenario.env None (Some 0) false)
           (Scenario.ctx true false) 0 200 Scenario.world);
    reflexivity.
Defined.

(** C3 fails in synchronous-unwind mode: the check of an already
    cancelled query raises instead of returning. *)
Lemma already_cancelled_sync_raises :
  hard_mem_limit_exceeded (Scenario.env None (Some 0) false) 0 200 = true /\
  query_is_cancelled (Scenario.env None (Some 0) false) Scenario.world = true /\
  sys_memory_check (Scenario.cfg 0 1000 false) (Scenario.env None (Some 0) false)
    (Scenario.ctx true true) 0 200 Scenario.world
  = Some (Exn MEM_ALLOC_FAILED
            (sys_err_msg (Scenario.cfg 0 1000 false)
               (Scenario.env None (Some 0) false) (Scenario.ctx true true) 200),
          set_query_cancelled true Scenario.world) /\
  decision (Exn MEM_ALLOC_FAILED
              (sys_err_msg (Scenario.cfg 0 1000 false)
                 (Scenario.env None (Some 0) false) (Scenario.ctx true true) 200),
            set_query_cancelled true Scenario.world) <> Cancelled.
Proof.
  repeat split; discriminate.
Qed.

(** C9.  With the GC-disable flag set and a positive ceiling, an
    attached, wait-eligible, not yet cancelled query over the hard limit
    is let through: the check logs that it waits, but does not sleep,
    does not disable further waiting, does not cancel or raise, and
    returns, whatever the fuel. *)
Theorem gc_disabled_lets_through cfg env ctx fuel size w :
  disable_memory_gc cfg = true ->
  0 < thread_wait_gc_max_milliseconds cfg ->
  skip_memory_check ctx = 0 ->
  fault_fires cfg env = false ->
  hard_mem_limit_exceeded env (clock_ms w) size = true ->
  query_is_cancelled env w = false ->
  is_attach_query ctx = true ->
  wait_gc w = true ->
  sys_memory_check cfg env ctx fuel size w
  = Some (Val tt, waiting_world cfg env ctx size w) /\
  clock_ms (waiting_world cfg env ctx size w) = clock_ms w /\
  wait_gc (waiting_world cfg env ctx size w) = true /\
  query_cancelled (waiting_world cfg env ctx size w) = false /\
  trace (waiting_world cfg env ctx size w)
  = (trace w ++ [EvLogInfo (waiting_msg cfg ctx (sys_err_msg cfg env ctx size))])%list /\
  decision (Val tt, waiting_world cfg env ctx size w) = Proceed.
Proof.
  intros Hgc Hpos Hskip Hfault Hex Hc Hat Hwg.
  pose proof (not_cancelled_mark env w Hc) as Hq.
  rewrite sys_check_wait by assumption.
  rewrite Hgc. cbn [negb]. unfold call, bind, ret, wait_ceiling_reached, when.
  replace (thread_wait_gc_max_milliseconds cfg <=? 0) with false
    by (symmetry; apply Z.leb_gt; exact Hpos).
  repeat split; simpl; auto.
  now rewrite Hq.
Qed.

Lemma gc_disabled_lets_through_witness :
  sys_memory_check (Scenario.cfg 0 1000 true) (Scenario.env None None false)
    (Scenario.ctx true false) 0 200 Scenario.world
  = Some (Val tt,
          waiting_world (Scenario.cfg 0 1000 true) (Scenario.env None None false)
            (Scenario.ctx true false) 200 Scenario.world) /\
  decision (Val tt,
            waiting_world (Scenario.cfg 0 1000 true) (Scenario.env None None false)
              (Scenario.ctx true false) 200 Scenario.world) = Proceed.
Proof.
  destruct (gc_disabled_lets_through
              (Scenario.cfg 0 1000 true) (Scenario.env None None false)
              (Scenario.ctx true false) 0 200 Scenario.world)
    as (Hrun & _ & _ & _ & _ & Hdec); try reflexivity.
  split; [exact Hrun | exact Hdec].
Defined.

(** C4.  During a wait, the poll that finds the hard limit no longer
    exceeded adds the request's size to the Arbitrator's
    [refresh_interval_memory_growth] and the check returns, which is
    [Proceed]: nothing is cancelled, waiting stays enabled. *)
Theorem freed_during_wait_proceeds cfg env ctx fuel size w (k : nat) :
  skip_memory_check ctx = 0 ->
  fault_fires cfg env = false ->
  hard_mem_limit_exceeded env (clock_ms w) size = true ->
  query_is_cancelled env w = false ->
  is_attach_query ctx = true ->
  wait_gc w = true ->
  disable_memory_gc cfg = false ->
  100 * Z.of_nat k < thread_wait_gc_max_milliseconds cfg ->
  polls_blocked env size w k = true ->
  poll_exceeded env size w (S k) = false ->
  (k < fuel)%nat ->
  exists w' : World,
    sys_memory_check cfg env ctx fuel size w = Some (Val tt, w') /\
    decision (Val tt, w') = Proceed /\
    refresh_interval_memory_growth w'
    = wrap_int64 (refresh_interval_memory_growth w + size) /\
    (- 2 ^ 63 <= refresh_interval_memory_growth w + size < 2 ^ 63 ->
     refresh_interval_memory_growth w' = refresh_interval_memory_growth w + size) /\
    clock_ms w' = clock_ms w + 100 * Z.of_nat (S k) /\
    wait_gc w' = true /\
    query_cancelled w' = false /\
    trace w'
    = (trace w ++ [EvLogInfo (waiting_msg cfg ctx (sys_err_msg cfg env ctx size))])%list.
Proof.
  intros Hskip Hfault Hex Hc Hat Hwg Hgc Hk Hblocked Hfree Hfuel.
  pose proof (not_cancelled_mark env w Hc) as Hq.
  rewrite (sys_check_freed cfg env ctx fuel size w Hskip Hfault Hex Hc Hat Hwg k)
    by assumption.
  eexists. split; [reflexivity |].
  simpl. rewrite Hq. repeat split; auto.
  intros Hrange. apply wrap_int64_small. exact Hrange.
Qed.

Lemma freed_during_wait_proceeds_witness :
  exists w' : World,
    sys_memory_check (Scenario.cfg 0 1000 false) (Scenario.env (Some 200) None false)
      (Scenario.ctx true false) 2 200 Scenario.world = Some (Val tt, w') /\
    decision (Val tt, w') = Proceed /\
    refresh_interval_memory_growth w' = 200 /\
    clock_ms w' = 200.
Proof.
  destruct (freed_during_wait_proceeds
              (Scenario.cfg 0 1000 false) (Scenario.env (Some 200) None false)
              (Scenario.ctx true false) 2 200 Scenario.world 1)
    as (w' & Hrun & Hdec & Hgrow & _ & Hclk & _); try reflexivity.
  - lia.
  - exists w'. repeat split; assumption.
Defined.

(** C5.  When every poll the ceiling allows finds the limit exceeded and
    the query not cancelled, the check disables further waiting for the
    context and escalates: in synchronous-unwind mode it raises [Fail]
    with the descriptive message, in asynchronous mode it cancels the
    query with that message and returns, which is [Cancelled].  A later
    check of the context never sleeps. *)
Theorem wait_ceiling_escalates cfg env ctx fuel size w :
  skip_memory_check ctx = 0 ->
  fault_fires cfg env = false ->
  hard_mem_limit_exceeded env (clock_ms w) size = true ->
  query_is_cancelled env w = false ->
  is_attach_query ctx = true ->
  wait_gc w = true ->
  disable_memory_gc cfg = false \/ thread_wait_gc_max_milliseconds cfg <= 0 ->
  polls_blocked env size w (polls_left cfg 0) = true ->
  (polls_left cfg 0 <= fuel)%nat ->
  exists (r : Res unit) (w' : World),
    sys_memory_check cfg env ctx fuel size w = Some (r, w') /\
    r = (if enable_thread_catch_bad_alloc ctx
         then Exn MEM_ALLOC_FAILED (sys_err_msg cfg env ctx size)
         else Val tt) /\
    decision (r, w')
    = (if enable_thread_catch_bad_alloc ctx
       then Fail (sys_err_msg cfg env ctx size)
       else Cancelled) /\
    wait_gc w' = false /\
    clock_ms w' = clock_ms w + 100 * Z.of_nat (polls_left cfg 0) /\
    trace w'
    = (trace w ++
       [EvLogInfo (waiting_msg cfg ctx (sys_err_msg cfg env ctx size));
        EvDisableWaitGc; EvPrintLogProcessUsage] ++
       (if enable_thread_catch_bad_alloc ctx
        then [EvLogInfo (throw_exception_msg ctx
                           (100 * Z.of_nat (polls_left cfg 0))
                           (sys_err_msg cfg env ctx size))]
        else [EvLogInfo (canceled_asyn_msg ctx
                           (100 * Z.of_nat (polls_left cfg 0))
                           (sys_err_msg cfg env ctx size));
              EvCancelQuery (sys_err_msg cfg env ctx size)]))%list /\
    forall cfg2 env2 fuel2 size2,
    exists (r2 : Res unit) (w2 : World),
      sys_memory_check cfg2 env2 ctx fuel2 size2 w' = Some (r2, w2) /\
      clock_ms w2 = clock_ms w'.
Proof.
  intros Hskip Hfault Hex Hc Hat Hwg Hgc Hblocked Hfuel.
  pose proof (not_cancelled_mark env w Hc) as Hq.
  rewrite sys_check_ceiling by assumption.
  destruct (enable_thread_catch_bad_alloc ctx); eexists _, _;
    (split; [reflexivity |]); (split; [reflexivity |]);
    (split; [simpl; try rewrite Hq; reflexivity |]);
    (split; [reflexivity |]); (split; [reflexivity |]);
    (split; [simpl; rewrite <- !app_assoc; reflexivity |]);
    intros cfg2 env2 fuel2 size2;
    match goal with
    | |- context [sys_memory_check _ _ _ _ _ ?w1] =>
        destruct (sys_check_without_wait_gc cfg2 env2 ctx fuel2 size2 w1 eq_refl)
          as (r2 & w2 & Hrun & Hclk & _)
    end;
    exists r2, w2; split; assumption.
Qed.

Lemma wait_ceiling_escalates_witness :
  exists (r : Res unit) (w' : World),
    sys_memory_check (Scenario.cfg 0 250 false) (Scenario.env None None false)
      (Scenario.ctx true false) 3 200 Scenario.world = Some (r, w') /\
    r = Val tt /\
    decision (r, w') = Cancelled /\
    wait_gc w' = false /\
    clock_ms w' = 300.
Proof.
  destruct (wait_ceiling_escalates
              (Scenario.cfg 0 250 false) (Scenario.env None None false)
              (Scenario.ctx true false) 3 200 Scenario.world)
    as (r & w' & Hrun & Hr & Hdec & Hwg & Hclk & _); try reflexivity.
  - left. reflexivity.
  - exists r, w'. repeat split; assumption.
Defined.

(** C6.  With fuel for the polls the ceiling allows the check always
    ends.  What it has slept is a whole number of 100 ms increments and
    at most the ceiling plus one increment (a ceiling below zero counts
    as zero: nothing is slept).  If a poll within the ceiling finds the
    limit satisfied, no earlier poll having found the query cancelled,
    the blocked check returns, which is [Proceed]. *)
Theorem wait_terminates_within_ceiling cfg env ctx fuel size w :
  (polls_left cfg 0 <= fuel)%nat ->
  exists (n : nat) (r : Res unit) (w' : World),
    sys_memory_check cfg env ctx fuel size w = Some (r, w') /\
    clock_ms w' - clock_ms w = 100 * Z.of_nat n /\
    clock_ms w' - clock_ms w <= Z.max 0 (thread_wait_gc_max_milliseconds cfg) + 100 /\
    (0 <= thread_wait_gc_max_milliseconds cfg ->
     clock_ms w' - clock_ms w <= thread_wait_gc_max_milliseconds cfg + 100) /\
    forall k : nat,
      skip_memory_check ctx = 0 ->
      fault_fires cfg env = false ->
      hard_mem_limit_exceeded env (clock_ms w) size = true ->
      query_is_cancelled env w = false ->
      is_attach_query ctx = true ->
      wait_gc w = true ->
      disable_memory_gc cfg = false ->
      100 * Z.of_nat k < thread_wait_gc_max_milliseconds cfg ->
      polls_blocked env size w k = true ->
      poll_exceeded env size w (S k) = false ->
      r = Val tt /\ decision (r, w') = Proceed /\ n = S k.
Proof.
  intros Hfuel.
  destruct (sys_check_total cfg env ctx fuel size w Hfuel)
    as (n & r & w' & Hrun & Hn & Hclk & _).
  exists n, r, w'. split; [exact Hrun |].
  split; [lia |].
  split; [pose proof (polls_left_bound cfg); lia |].
  split; [pose proof (polls_left_bound cfg); lia |].
  intros k Hskip Hfault Hex Hc Hat Hwg Hgc Hk Hblocked Hfree.
  assert (Hkf : (k < fuel)%nat).
  { enough (S k <= polls_left cfg 0)%nat by lia.
    unfold polls_left. rewrite Z.sub_0_r.
    assert (Z.of_nat k + 1 <= (thread_wait_gc_max_milliseconds cfg + 99) / 100)
      by (apply Z.div_le_lower_bound; lia).
    lia. }
  rewrite (sys_check_freed cfg env ctx fuel size w Hskip Hfault Hex Hc Hat Hwg k)
    in Hrun by assumption.
  injection Hrun as <- <-.
  pose proof (not_cancelled_mark env w Hc) as Hq.
  cbn [clock_ms grow advance waiting_world emit] in Hclk.
  cbn [decision query_cancelled grow advance waiting_world emit].
  rewrite Hq.
  repeat split. lia.
Qed.

Lemma wait_terminates_within_ceiling_witness :
  exists (n : nat) (r : Res unit) (w' : World),
    sys_memory_check (Scenario.cfg 0 250 false) (Scenario.env (Some 200) None false)
      (Scenario.ctx true false) 3 200 Scenario.world = Some (r, w') /\
    clock_ms w' - 0 = 100 * Z.of_nat n /\
    clock_ms w' - 0 <= 250 + 100 /\
    r = Val tt /\ decision (r, w') = Proceed /\ n = 2%nat.
Proof.
  destruct (wait_terminates_within_ceiling
              (Scenario.cfg 0 250 false) (Scenario.env (Some 200) None false)
              (Scenario.ctx true false) 3 200 Scenario.world)
    as (n & r & w' & Hrun & Hmult & _ & Hbound & Hfreed).
  - vm_compute. lia.
  - exists n, r, w'.
    repeat split; try assumption;
      [apply Hbound; simpl; lia | apply (Hfreed 1%nat); reflexivity ..].
Defined.

(** C7, as the code has it.  A check reads the cancellation mark only
    once it has found the hard limit exceeded: on entry, or at a poll of
    the wait.  Finding the query cancelled there, it stops without
    further sleep, without a cancel of its own and without disabling the
    wait: in asynchronous mode it returns, which is [Cancelled]; in
    synchronous-unwind mode it raises [Fail] with the descriptive
    message.  [n] is the number of polls made: none when the mark is
    found on entry. *)
Theorem cancellation_found_when_limit_exceeded cfg env ctx fuel size w (n : nat) :
  skip_memory_check ctx = 0 ->
  fault_fires cfg env = false ->
  hard_mem_limit_exceeded env (clock_ms w) size = true ->
  (n = 0%nat /\ query_is_cancelled env w = true) \/
  (exists k : nat,
     n = S k /\
     query_is_cancelled env w = false /\
     is_attach_query ctx = true /\
     wait_gc w = true /\
     disable_memory_gc cfg = false /\
     100 * Z.of_nat k < thread_wait_gc_max_milliseconds cfg /\
     polls_blocked env size w k = true /\
     poll_exceeded env size w (S k) = true /\
     poll_cancelled env w (S k) = true /\
     (k < fuel)%nat) ->
  exists (r : Res unit) (w' : World),
    sys_memory_check cfg env ctx fuel size w = Some (r, w') /\
    r = (if enable_thread_catch_bad_alloc ctx
         then Exn MEM_ALLOC_FAILED (sys_err_msg cfg env ctx size)
         else Val tt) /\
    decision (r, w')
    = (if enable_thread_catch_bad_alloc ctx
       then Fail (sys_err_msg cfg env ctx size)
       else Cancelled) /\
    clock_ms w' = clock_ms w + 100 * Z.of_nat n /\
    wait_gc w' = wait_gc w /\
    refresh_interval_memory_growth w' = refresh_interval_memory_growth w /\
    trace w'
    = (trace w ++
       match n with
       | O => []
       | S _ => [EvLogInfo (waiting_msg cfg ctx (sys_err_msg cfg env ctx size))]
       end)%list.
Proof.
  intros Hskip Hfault Hex
    [[-> Hc] | (k & -> & Hc & Hat & Hwg & Hgc & Hk & Hblocked & Hexk & Hck & Hfuel)].
  - rewrite sys_check_already_cancelled by assumption.
    eexists _, _. split; [reflexivity |].
    rewrite app_nil_r, Z.mul_0_r, Z.add_0_r.
    destruct (enable_thread_catch_bad_alloc ctx); repeat split.
  - rewrite (sys_check_cancelled_in_wait cfg env ctx fuel size w
               Hskip Hfault Hex Hc Hat Hwg k) by assumption.
    eexists _, _. split; [reflexivity |].
    destruct (enable_thread_catch_bad_alloc ctx); repeat split.
Qed.

Lemma cancellation_found_when_limit_exceeded_witness :
  (exists (r : Res unit) (w' : World),
     sys_memory_check (Scenario.cfg 0 1000 false) (Scenario.env None (Some 0) false)
       (Scenario.ctx true false) 0 200 Scenario.world = Some (r, w') /\
     decision (r, w') = Cancelled /\
     clock_ms w' = 0) /\
  (exists (r : Res unit) (w' : World),
     sys_memory_check (Scenario.cfg 0 1000 false) (Scenario.env None (Some 150) false)
       (Scenario.ctx true false) 2 200 Scenario.world = Some (r, w') /\
     decision (r, w') = Cancelled /\
     clock_ms w' = 200).
Proof.
  split.
  - destruct (cancellation_found_when_limit_exceeded
                (Scenario.cfg 0 1000 false) (Scenario.env None (Some 0) false)
                (Scenario.ctx true false) 0 200 Scenario.world 0)
      as (r & w' & Hrun & _ & Hdec & Hclk & _); try reflexivity.
    + left. split; reflexivity.
    + exists r, w'. repeat split; assumption.
  - destruct (cancellation_found_when_limit_exceeded
                (Scenario.cfg 0 1000 false) (Scenario.env None (Some 150) false)
                (Scenario.ctx true false) 2 200 Scenario.world 2)
      as (r & w' & Hrun & _ & Hdec & Hclk & _); try reflexivity.
    + right. exists 1%nat. repeat split; try reflexivity; lia.
    + exists r, w'. repeat split; assumption.
Defined.

(** C7 fails in synchronous-unwind mode: a thread that finds its query
    cancelled at a poll of the wait raises instead of returning. *)
Lemma cancelled_during_wait_sync_raises :
  query_is_cancelled (Scenario.env None (Some 150) false)
    (advance 200 (waiting_world (Scenario.cfg 0 1000 false)
                    (Scenario.env None (Some 150) false)
                    (Scenario.ctx true true) 200 Scenario.world)) = true /\
  sys_memory_check (Scenario.cfg 0 1000 false) (Scenario.env None (Some 150) false)
    (Scenario.ctx true true) 2 200 Scenario.world
  = Some (Exn MEM_ALLOC_FAILED
            (sys_err_msg (Scenario.cfg 0 1000 false)
               (Scenario.env None (Some 150) false) (Scenario.ctx true true) 200),
          set_query_cancelled true
            (advance 200
               (waiting_world (Scenario.cfg 0 1000 false)
                  (Scenario.env None (Some 150) false)
                  (Scenario.ctx true true) 200 Scenario.world))) /\
  decision (Exn MEM_ALLOC_FAILED
              (sys_err_msg (Scenario.cfg 0 1000 false)
                 (Scenario.env None (Some 150) false) (Scenario.ctx true true) 200),
            set_query_cancelled true
              (advance 200
                 (waiting_world (Scenario.cfg 0 1000 false)
                    (Scenario.env None (Some 150) false)
                    (Scenario.ctx true true) 200 Scenario.world))) <> Cancelled.
Proof.
  repeat split; discriminate.
Qed.

(** C2.  When the fault-injection trial fires, the check ends as a
    genuine admission failure does, with the same error code and by the
    same policy: in synchronous-unwind mode it raises [MEM_ALLOC_FAILED],
    in asynchronous mode it cancels the owning query and returns, which
    is [Cancelled]; it neither sleeps nor touches the growth counter.
    Every check, injected fault or not, ends by a normal return or by
    raising that one code. *)
Theorem injected_fault_escalates cfg env ctx fuel size w :
  skip_memory_check ctx = 0 ->
  fault_fires cfg env = true ->
  (exists (r : Res unit) (w' : World),
     sys_memory_check cfg env ctx fuel size w = Some (r, w') /\
     r = (if enable_thread_catch_bad_alloc ctx
          then Exn MEM_ALLOC_FAILED (injection_err_msg ctx)
          else Val tt) /\
     decision (r, w')
     = (if enable_thread_catch_bad_alloc ctx
        then Fail (injection_err_msg ctx)
        else Cancelled) /\
     clock_ms w' = clock_ms w /\
     refresh_interval_memory_growth w' = refresh_interval_memory_growth w /\
     wait_gc w' = wait_gc w /\
     (enable_thread_catch_bad_alloc ctx = false ->
      query_cancelled w' = true /\
      In (EvCancelQuery (injection_err_msg ctx)) (trace w'))) /\
  (forall env0 fuel0 size0 w0,
     (polls_left cfg 0 <= fuel0)%nat ->
     exists (r0 : Res unit) (w0' : World),
       sys_memory_check cfg env0 ctx fuel0 size0 w0 = Some (r0, w0') /\
       (r0 = Val tt \/ exists text, r0 = Exn MEM_ALLOC_FAILED text)).
Proof.
  intros Hskip Hfires. split.
  - apply andb_true_iff in Hfires. destruct Hfires as [Hprob Htrial].
    unfold sys_memory_check, call, sys_memory_check_body, fault_injection.
    rewrite Hskip, Hprob, Htrial. cbn [Z.eqb negb].
    unfold hard_limit_check. run_check.
    destruct (enable_thread_catch_bad_alloc ctx); cbn [negb].
    + destruct (negb (enable_stacktrace cfg)); eexists _, _;
        (split; [reflexivity |]); repeat split; discriminate.
    + cbn [clock_ms emit set_query_cancelled].
      destruct (negb (enable_stacktrace cfg));
        cbn [clock_ms emit set_query_cancelled];
        destruct (hard_mem_limit_exceeded env (clock_ms w) size);
        cbn [query_is_cancelled query_cancelled emit set_query_cancelled orb];
        eexists _, _; (split; [reflexivity |]); repeat split;
        cbn [trace emit set_query_cancelled];
        rewrite ?in_app_iff; simpl; auto.
  - intros env0 fuel0 size0 w0 Hfuel.
    destruct (sys_check_total cfg env0 ctx fuel0 size0 w0 Hfuel)
      as (n & r0 & w0' & Hrun & _ & _ & Hr).
    exists r0, w0'. split; assumption.
Qed.

Lemma injected_fault_escalates_witness :
  exists (r : Res unit) (w' : World),
    sys_memory_check (Scenario.cfg (1 # 2) 1000 false) (Scenario.env None None true)
      (Scenario.ctx true false) 0 200 Scenario.world = Some (r, w') /\
    r = Val tt /\
    decision (r, w') = Cancelled /\
    clock_ms w' = 0 /\
    query_cancelled w' = true /\
    In (EvCancelQuery (injection_err_msg (Scenario.ctx true false))) (trace w').
Proof.
  destruct (injected_fault_escalates
              (Scenario.cfg (1 # 2) 1000 false) (Scenario.env None None true)
              (Scenario.ctx true false) 0 200 Scenario.world)
    as [(r & w' & Hrun & Hr & Hdec & Hclk & _ & _ & Hcancel) _];
    try reflexivity.
  destruct (Hcancel eq_refl) as [Hmark Hev].
  exists r, w'. repeat split; assumption.
Defined.

(** ** The soft-limit check *)

Lemma tracker_check_failed env ctx size w :
  skip_memory_check ctx = 0 ->
  status_ok (check_limit env (clock_ms w) size) = false ->
  memory_tracker_check env ctx size w
  = let err_msg := tracker_err_msg (check_limit env (clock_ms w) size) in
    let w1 := emit (EvPrintLogUsage err_msg) w in
    if is_attach_query ctx then
      let w2 := emit EvDisableWaitGc (set_wait_gc false w1) in
      if enable_thread_catch_bad_alloc ctx then
        Some (Exn MEM_ALLOC_FAILED err_msg,
              emit (EvLogInfo ("query/load:" ++ task_id ctx ++
                               " throw exception, " ++ err_msg ++ ".")) w2)
      else
        Some (Val tt,
              emit (EvCancelQuery err_msg)
                (set_query_cancelled true
                   (emit (EvLogInfo ("query/load:" ++ task_id ctx ++
                                     " canceled asyn, " ++ err_msg ++ ".")) w2)))
    else if enable_thread_catch_bad_alloc ctx then
      Some (Exn MEM_ALLOC_FAILED err_msg,
            emit (EvLogInfo ("memory tracker check failed, throw exception, " ++
                             err_msg ++ ".")) w1)
    else
      Some (Val tt,
            emit (EvLogInfo ("memory tracker check failed, no throw exception, " ++
                             err_msg ++ ".")) w1).
Proof.
  intros Hskip Hst. run_check.
  rewrite Hskip. cbn [Z.eqb negb]. rewrite Hst. cbn [negb].
  destruct (is_attach_query ctx), (enable_thread_catch_bad_alloc ctx);
    reflexivity.
Qed.

(** C8.  A failed soft-limit check escalates at once: no sleep, and no
    look at the hard limit, so the answer is the same whatever the
    Arbitrator and the other actors say.  In synchronous-unwind mode the
    check raises [Fail]; for an attached query in asynchronous mode it
    cancels the query and returns, which is [Cancelled]. *)
Theorem soft_limit_violation_escalates env ctx size w :
  skip_memory_check ctx = 0 ->
  status_ok (check_limit env (clock_ms w) size) = false ->
  exists (r : Res unit) (w' : World),
    memory_tracker_check env ctx size w = Some (r, w') /\
    clock_ms w' = clock_ms w /\
    refresh_interval_memory_growth w' = refresh_interval_memory_growth w /\
    (enable_thread_catch_bad_alloc ctx = true ->
     r = Exn MEM_ALLOC_FAILED (tracker_err_msg (check_limit env (clock_ms w) size)) /\
     decision (r, w') = Fail (tracker_err_msg (check_limit env (clock_ms w) size))) /\
    (enable_thread_catch_bad_alloc ctx = false ->
     is_attach_query ctx = true ->
     r = Val tt /\
     decision (r, w') = Cancelled /\
     query_cancelled w' = true /\
     exists before,
       trace w'
       = (before ++
          [EvCancelQuery (tracker_err_msg (check_limit env (clock_ms w) size))])%list) /\
    forall exceeded' cancelled' fault' stack' process',
      memory_tracker_check
        (mkEnv exceeded' cancelled' fault' stack' process' (check_limit env))
        ctx size w
      = Some (r, w').
Proof.
  intros Hskip Hst.
  rewrite tracker_check_failed by assumption.
  cbv zeta.
  destruct (is_attach_query ctx) eqn:Hat,
           (enable_thread_catch_bad_alloc ctx) eqn:Hcatch;
    eexists _, _; (split; [reflexivity |]);
    (split; [reflexivity |]); (split; [reflexivity |]);
    (split; [intros; try discriminate; split; reflexivity |]);
    (split;
     [intros; try discriminate; repeat split; eexists; reflexivity |]);
    intros; rewrite tracker_check_failed by assumption;
    cbv zeta; rewrite Hat, Hcatch; reflexivity.
Qed.

Lemma soft_limit_violation_escalates_witness :
  exists (r : Res unit) (w' : World),
    memory_tracker_check (Scenario.env None None false) (Scenario.ctx true false)
      30 Scenario.world = Some (r, w') /\
    clock_ms w' = 0 /\
    r = Val tt /\
    decision (r, w') = Cancelled /\
    query_cancelled w' = true.
Proof.
  destruct (soft_limit_violation_escalates
              (Scenario.env None None false) (Scenario.ctx true false)
              30 Scenario.world)
    as (r & w' & Hrun & Hclk & _ & _ & Hasync & _); try reflexivity.
  destruct (Hasync eq_refl eq_refl) as (Hr & Hdec & Hmark & _).
  exists r, w'. repeat split; assumption.
Defined.

(** C10.  On a soft-limit violation by a query-attached context the
    check disables further hard-limit waiting before it cancels or
    raises, so that no later hard-limit check of the context sleeps. *)
Theorem soft_limit_violation_disables_wait env ctx size w :
  skip_memory_check ctx = 0 ->
  status_ok (check_limit env (clock_ms w) size) = false ->
  is_attach_query ctx = true ->
  exists (r : Res unit) (w' : World) (text : string),
    memory_tracker_check env ctx size w = Some (r, w') /\
    r = (if enable_thread_catch_bad_alloc ctx
         then Exn MEM_ALLOC_FAILED (tracker_err_msg (check_limit env (clock_ms w) size))
         else Val tt) /\
    wait_gc w' = false /\
    trace w'
    = (trace w ++
       [EvPrintLogUsage (tracker_err_msg (check_limit env (clock_ms w) size));
        EvDisableWaitGc;
        EvLogInfo text] ++
       (if enable_thread_catch_bad_alloc ctx
        then []
        else [EvCancelQuery (tracker_err_msg (check_limit env (clock_ms w) size))]))%list /\
    forall cfg2 env2 fuel2 size2,
    exists (r2 : Res unit) (w2 : World),
      sys_memory_check cfg2 env2 ctx fuel2 size2 w' = Some (r2, w2) /\
      clock_ms w2 = clock_ms w' /\
      wait_gc w2 = false.
Proof.
  intros Hskip Hst Hat.
  rewrite tracker_check_failed by assumption.
  cbv zeta. rewrite Hat.
  destruct (enable_thread_catch_bad_alloc ctx); eexists _, _, _;
    (split; [reflexivity |]); (split; [reflexivity |]);
    (split; [reflexivity |]);
    (split; [cbn [trace emit set_wait_gc set_query_cancelled];
             rewrite <- ?app_assoc; reflexivity |]);
    intros cfg2 env2 fuel2 size2;
    apply sys_check_without_wait_gc; reflexivity.
Qed.

Lemma soft_limit_violation_disables_wait_witness :
  exists (r : Res unit) (w' : World),
    memory_tracker_check (Scenario.env None None false) (Scenario.ctx true true)
      30 Scenario.world = Some (r, w') /\
    wait_gc w' = false /\
    exists (r2 : Res unit) (w2 : World),
      sys_memory_check (Scenario.cfg 0 1000 false) (Scenario.env None None false)
        (Scenario.ctx true true) 0 200 w' = Some (r2, w2) /\
      clock_ms w2 = clock_ms w'.
Proof.
  destruct (soft_limit_violation_disables_wait
              (Scenario.env None None false) (Scenario.ctx true true)
              30 Scenario.world)
    as (r & w' & text & Hrun & _ & Hwg & _ & Hlater); try reflexivity.
  destruct (Hlater (Scenario.cfg 0 1000 false) (Scenario.env None None false)
              0%nat 200)
    as (r2 & w2 & Hrun2 & Hclk2 & _).
  exists r, w'. repeat split; try assumption.
  exists r2, w2. split; assumption.
Defined.

(** ** What every check keeps *)

Lemma frame_refl catch size bound w : frame catch size bound w w.
Proof.
  repeat split; auto.
  - exists []. rewrite app_nil_r. split; [reflexivity | intros _ text []].
  - exists 0%nat. repeat split; [lia | simpl; lia | now left].
Qed.

Lemma frame_weaken catch size b b' w w' :
  frame catch size b w w' -> (b <= b')%nat -> frame catch size b' w w'.
Proof.
  intros (Htr & (n & Hn & Hclk & Hgrow) & Hwg & Hq) Hb.
  repeat split; auto.
  exists n. repeat split; auto. lia.
Qed.

Lemma frame_emit catch size bound w w' e :
  frame catch size bound w w' ->
  (catch = true -> forall text, e <> EvCancelQuery text) ->
  frame catch size bound w (emit e w').
Proof.
  intros ((said & Htr & Hsaid) & Hclk & Hwg & Hq) He.
  repeat split; auto.
  exists (said ++ [e])%list. cbn [trace emit]. split.
  - rewrite Htr. now rewrite app_assoc.
  - intros Hc text Hin. apply in_app_iff in Hin. destruct Hin as [Hin | [Hin | []]].
    + exact (Hsaid Hc text Hin).
    + exact (He Hc text Hin).
Qed.

Lemma frame_mark catch size bound w w' b :
  frame catch size bound w w' ->
  (query_cancelled w' = true -> b = true) ->
  frame catch size bound w (set_query_cancelled b w').
Proof.
  intros (Htr & Hclk & Hwg & Hq) Hb.
  repeat split; auto.
Qed.

Lemma frame_no_wait catch size bound w w' :
  frame catch size bound w w' ->
  frame catch size bound w (set_wait_gc false w').
Proof.
  intros (Htr & Hclk & Hwg & Hq).
  repeat split; auto.
  cbn [wait_gc set_wait_gc]. discriminate.
Qed.

(** A frame that starts after one sleep. *)
Lemma frame_after_sleep catch size bound w w' :
  frame catch size bound (advance 100 w) w' ->
  frame catch size (S bound) w w'.
Proof.
  intros (Htr & (n & Hn & Hclk & Hgrow) & Hwg & Hq).
  repeat split; auto.
  exists (S n). cbn [clock_ms advance refresh_interval_memory_growth] in *.
  repeat split; [lia | lia |].
  destruct Hgrow as [Hsame | [_ Hadd]]; [now left | right; split; [lia | exact Hadd]].
Qed.

(** One sleep, after which the limit is found satisfied. *)
Lemma frame_freed catch size w :
  frame catch size 1 w (grow size (advance 100 w)).
Proof.
  split; [| split; [| split]]; auto.
  - exists []. rewrite app_nil_r. split; [reflexivity | intros _ text []].
  - exists 1%nat. cbn [clock_ms advance grow refresh_interval_memory_growth].
    split; [lia |]. split; [lia |]. right. split; [lia | reflexivity].
Qed.

(** Frames compose when one of the two does not sleep. *)
Lemma frame_trans catch size b1 b2 w w1 w2 :
  frame catch size b1 w w1 ->
  frame catch size b2 w1 w2 ->
  b1 = 0%nat \/ b2 = 0%nat ->
  frame catch size (b1 + b2) w w2.
Proof.
  intros ((said1 & Htr1 & Hsaid1) & (n1 & Hn1 & Hclk1 & Hgrow1) & Hwg1 & Hq1)
         ((said2 & Htr2 & Hsaid2) & (n2 & Hn2 & Hclk2 & Hgrow2) & Hwg2 & Hq2) Hb.
  repeat split; auto.
  - exists (said1 ++ said2)%list. split.
    + rewrite Htr2, Htr1. now rewrite app_assoc.
    + intros Hc text Hin. apply in_app_iff in Hin. destruct Hin as [Hin | Hin].
      * exact (Hsaid1 Hc text Hin).
      * exact (Hsaid2 Hc text Hin).
  - exists (n1 + n2)%nat. repeat split; [lia | lia |].
    destruct Hb as [-> | ->].
    + assert (n1 = 0%nat) as -> by lia.
      destruct Hgrow1 as [Hsame1 | [Hpos _]]; [| lia].
      rewrite <- Hsame1. exact Hgrow2.
    + assert (n2 = 0%nat) as -> by lia.
      destruct Hgrow2 as [Hsame2 | [Hpos _]]; [| lia].
      rewrite Hsame2, Nat.add_0_r. exact Hgrow1.
Qed.

(** Closes a [frame] goal whose final world is spelled out. *)
Ltac frame_close :=
  repeat first
    [ assumption
    | apply frame_refl
    | apply frame_emit; [| intros; congruence]
    | apply frame_mark; [| intros; congruence]
    | apply frame_no_wait ].

Section Frames.

Variable cfg : Config.
Variable env : Env.
Variable ctx : ThreadContext.
Variable size : Z.

Lemma wait_frame err_msg fuel : forall waited w,
  (polls_left cfg waited <= fuel)%nat ->
  exists (r : Res Z) (w' : World),
    wait_for_gc cfg env ctx fuel size err_msg waited w = Some (r, w') /\
    frame (enable_thread_catch_bad_alloc ctx) size (polls_left cfg waited) w w' /\
    raises_within (enable_thread_catch_bad_alloc ctx) (eq err_msg) r.
Proof.
  induction fuel as [| fuel IH]; intros waited w Hfuel;
    destruct (Z_lt_le_dec waited (thread_wait_gc_max_milliseconds cfg)) as [Hlt | Hge].
  - rewrite (polls_left_step cfg waited Hlt) in Hfuel. lia.
  - rewrite wait_done by assumption. eexists _, _. split; [reflexivity |].
    split; [apply frame_refl | discriminate].
  - pose proof (polls_left_step cfg waited Hlt) as Hstep. rewrite Hstep.
    destruct (poll_exceeded env size w 1) eqn:Hex.
    2:{ rewrite wait_step_freed by assumption.
        eexists _, _. split; [reflexivity |]. split; [| discriminate].
        apply frame_weaken with (b := 1%nat); [apply frame_freed | lia]. }
    destruct (poll_cancelled env w 1) eqn:Hc.
    { rewrite wait_step_cancelled by assumption.
      eexists _, _. split; [reflexivity |]. split.
      - apply frame_mark; [| reflexivity].
        apply frame_after_sleep.
        apply frame_weaken with (b := 0%nat); [apply frame_refl | lia].
      - intros code text.
        destruct (enable_thread_catch_bad_alloc ctx); [| discriminate].
        intros [= <- <-]. auto. }
    rewrite wait_step_blocked by assumption.
    destruct (IH (waited + 100) (advance 100 w)) as (r & w' & Hrun & Hframe & Hr);
      [lia |].
    exists r, w'. split; [exact Hrun |]. split; [| exact Hr].
    apply frame_after_sleep. exact Hframe.
  - rewrite wait_done by assumption. eexists _, _. split; [reflexivity |].
    split; [apply frame_refl | discriminate].
Qed.

Lemma hard_limit_frame fuel w :
  (polls_left cfg 0 <= fuel)%nat ->
  exists (r : Res unit) (w' : World),
    hard_limit_check cfg env ctx fuel size w = Some (r, w') /\
    frame (enable_thread_catch_bad_alloc ctx) size (polls_left cfg 0) w w' /\
    raises_within (enable_thread_catch_bad_alloc ctx)
      (eq (sys_err_msg cfg env ctx size)) r.
Proof.
  intros Hfuel. unfold hard_limit_check.
  cbv [bind when is_exceed_hard_mem_limit is_query_cancelled get_wait_gc
       log_info modify throw return_ ret print_log_process_usage].
  destruct (hard_mem_limit_exceeded env (clock_ms w) size).
  2:{ eexists _, _. split; [reflexivity |]. split; [frame_close | discriminate]. }
  destruct (query_is_cancelled env w) eqn:Hc.
  { destruct (enable_thread_catch_bad_alloc ctx) eqn:Hcatch;
      eexists _, _; (split; [reflexivity |]); (split; [frame_close |]).
    - intros code text [= <- <-]. auto.
    - discriminate. }
  rewrite (set_query_cancelled_same w false (not_cancelled_mark env w Hc)).
  destruct (is_attach_query ctx && wait_gc w).
  2:{ destruct (enable_thread_catch_bad_alloc ctx) eqn:Hcatch;
        eexists _, _; (split; [reflexivity |]); (split; [frame_close |]).
      - intros code text [= <- <-]. auto.
      - discriminate. }
  match goal with
  | |- context [(if negb (disable_memory_gc cfg) then ?l else ?e) ?w0] =>
      assert (Hloop : exists (r1 : Res Z) (w1 : World),
                 (if negb (disable_memory_gc cfg) then l else e) w0
                 = Some (r1, w1) /\
                 frame (enable_thread_catch_bad_alloc ctx) size
                   (polls_left cfg 0) w w1 /\
                 raises_within (enable_thread_catch_bad_alloc ctx)
                   (eq (sys_err_msg cfg env ctx size)) r1)
  end.
  { destruct (disable_memory_gc cfg); cbn [negb].
    - eexists _, _. split; [reflexivity |]. split; [frame_close | discriminate].
    - match goal with
      | |- context [wait_for_gc _ _ _ _ _ ?m _ ?w0] =>
          destruct (wait_frame m fuel 0 w0 Hfuel) as (r1 & w1 & Hrun & Hframe & Hr)
      end.
      exists r1, w1. split; [exact Hrun |]. split; [| exact Hr].
      apply (frame_trans _ _ 0 _ w _ w1) in Hframe; [exact Hframe | frame_close | now left]. }
  destruct Hloop as (r1 & w1 & Hrun & Hframe & Hr).
  rewrite Hrun.
  destruct r1 as [v | | code text].
  - unfold wait_ceiling_reached. run_check.
    destruct (thread_wait_gc_max_milliseconds cfg <=? v).
    2:{ eexists _, _. split; [reflexivity |]. split; [frame_close | discriminate]. }
    destruct (enable_thread_catch_bad_alloc ctx) eqn:Hcatch; cbn [negb];
      eexists _, _; (split; [reflexivity |]); (split; [frame_close |]).
    + intros code text [= <- <-]. auto.
    + discriminate.
  - eexists _, _. split; [reflexivity |]. split; [frame_close | discriminate].
  - eexists _, _. split; [reflexivity |]. split; [frame_close |].
    intros c t [= <- <-]. exact (Hr code text eq_refl).
Qed.

Lemma fault_injection_frame w :
  exists (r : Res unit) (w1 : World),
    fault_injection cfg env ctx w = Some (r, w1) /\
    frame (enable_thread_catch_bad_alloc ctx) size 0 w w1 /\
    raises_within (enable_thread_catch_bad_alloc ctx)
      (eq (injection_err_msg ctx)) r /\
    r <> Ret.
Proof.
  unfold fault_injection. run_check.
  destruct (negb (Qle_bool (mem_alloc_fault_probability cfg) 0));
    destruct (fault_trial env);
    destruct (negb (enable_stacktrace cfg));
    destruct (enable_thread_catch_bad_alloc ctx) eqn:Hcatch; cbn [negb];
    eexists _, _; (split; [reflexivity |]); (split; [frame_close |]);
    (split; [| discriminate]);
    first [discriminate | intros code text [= <- <-]; auto].
Qed.

Lemma tracker_frame w :
  exists (r : Res unit) (w' : World),
    memory_tracker_check env ctx size w = Some (r, w') /\
    frame (enable_thread_catch_bad_alloc ctx) size 0 w w' /\
    raises_within (enable_thread_catch_bad_alloc ctx)
      (eq (tracker_err_msg (check_limit env (clock_ms w) size))) r /\
    r <> Ret.
Proof.
  run_check.
  destruct (negb (skip_memory_check ctx =? 0));
    [eexists _, _; split; [reflexivity |]; split; [frame_close |];
     split; discriminate |].
  destruct (negb (status_ok (check_limit env (clock_ms w) size)));
    [| eexists _, _; split; [reflexivity |]; split; [frame_close |];
       split; discriminate].
  destruct (is_attach_query ctx);
    destruct (enable_thread_catch_bad_alloc ctx) eqn:Hcatch; cbn [negb];
    eexists _, _; (split; [reflexivity |]); (split; [frame_close |]);
    (split; [| discriminate]);
    first [discriminate | intros code text [= <- <-]; auto].
Qed.

Lemma sys_frame fuel w :
  (polls_left cfg 0 <= fuel)%nat ->
  exists (r : Res unit) (w' : World),
    sys_memory_check cfg env ctx fuel size w = Some (r, w') /\
    frame (enable_thread_catch_bad_alloc ctx) size (polls_left cfg 0) w w' /\
    raises_within (enable_thread_catch_bad_alloc ctx)
      (check_texts cfg env ctx size) r /\
    r <> Ret.
Proof.
  intros Hfuel. unfold sys_memory_check, call, sys_memory_check_body.
  destruct (negb (skip_memory_check ctx =? 0)).
  { eexists _, _. split; [reflexivity |]. split; [frame_close |].
    split; discriminate. }
  unfold bind at 1.
  destruct (fault_injection_frame w) as (r0 & w1 & -> & Hframe0 & Hr0 & Hret0).
  destruct r0 as [[] | | code text]; [| contradiction |].
  2:{ eexists _, _. split; [reflexivity |].
      split; [apply frame_weaken with (b := 0%nat); [exact Hframe0 | lia] |].
      split; [| discriminate].
      intros c t [= <- <-]. destruct (Hr0 code text eq_refl) as (Hc & Hcode & <-).
      repeat split; auto. now left. }
  destruct (hard_limit_frame fuel w1 Hfuel) as (r & w' & -> & Hframe & Hr).
  pose proof (frame_trans _ _ _ _ _ _ _ Hframe0 Hframe (or_introl eq_refl)) as Hall.
  assert (Htexts : raises_within (enable_thread_catch_bad_alloc ctx)
                     (check_texts cfg env ctx size) r).
  { intros c t ->. destruct (Hr c t eq_refl) as (Hc & Hcode & <-).
    repeat split; auto. right. now left. }
  destruct r as [[] | | code text]; eexists _, _;
    (split; [reflexivity |]); (split; [exact Hall |]); split;
    try discriminate; try exact Htexts.
Qed.

(** [memory_check] ends when the loop has its fuel, and keeps the frame. *)
Lemma memory_check_frame fuel w :
  (polls_left cfg 0 <= fuel)%nat ->
  exists (r : Res unit) (w' : World),
    memory_check cfg env ctx fuel size w = Some (r, w') /\
    frame (enable_thread_catch_bad_alloc ctx) size (polls_left cfg 0) w w' /\
    raises_within (enable_thread_catch_bad_alloc ctx)
      (check_texts cfg env ctx size) r /\
    r <> Ret.
Proof.
  intros Hfuel. unfold memory_check, bind.
  destruct (sys_frame fuel w Hfuel) as (r1 & w1 & -> & Hframe1 & Hr1 & Hret1).
  destruct r1 as [[] | | code text]; [| contradiction |].
  2:{ eexists _, _. split; [reflexivity |].
      split; [exact Hframe1 | split; [exact Hr1 | discriminate]]. }
  destruct (tracker_frame w1) as (r & w' & -> & Hframe & Hr & Hret).
  exists r, w'. split; [reflexivity |].
  split.
  - pose proof (frame_trans _ _ _ _ _ _ _ Hframe1 Hframe (or_intror eq_refl)) as Hall.
    now rewrite Nat.add_0_r in Hall.
  - split; [| exact Hret].
    intros c t ->. destruct (Hr c t eq_refl) as (Hc & Hcode & <-).
    repeat split; auto. right. right. now exists (clock_ms w1).
Qed.

End Frames.

(** A frame without a sleep leaves the clock and the growth counter. *)
Lemma frame_0_still catch size w w' :
  frame catch size 0 w w' ->
  clock_ms w' = clock_ms w /\
  refresh_interval_memory_growth w' = refresh_interval_memory_growth w.
Proof.
  intros (_ & (n & Hn & Hclk & Hgrow) & _).
  assert (n = 0%nat) as -> by lia.
  split; [simpl in Hclk; lia |].
  destruct Hgrow as [Hsame | [Hpos _]]; [exact Hsame | lia].
Qed.

Lemma may_wait_frame cfg ctx catch size bound w w' :
  frame catch size bound w w' ->
  may_wait cfg ctx w = false -> may_wait cfg ctx w' = false.
Proof.
  intros (_ & _ & Hwg & _). unfold may_wait.
  destruct (wait_gc w'); [rewrite (Hwg eq_refl); auto |].
  intros _. now rewrite andb_false_r.
Qed.

(** Lines 109-132: without [may_wait] the loop is not run. *)
Lemma hard_limit_no_sleep cfg env ctx fuel size w :
  may_wait cfg ctx w = false ->
  exists (r : Res unit) (w' : World),
    hard_limit_check cfg env ctx fuel size w = Some (r, w') /\
    frame (enable_thread_catch_bad_alloc ctx) size 0 w w'.
Proof.
  intros Hmay. unfold hard_limit_check.
  cbv [bind when is_exceed_hard_mem_limit is_query_cancelled get_wait_gc
       log_info modify throw return_ ret print_log_process_usage].
  destruct (hard_mem_limit_exceeded env (clock_ms w) size).
  2:{ eexists _, _. split; [reflexivity | frame_close]. }
  destruct (query_is_cancelled env w) eqn:Hc.
  { destruct (enable_thread_catch_bad_alloc ctx) eqn:Hcatch;
      eexists _, _; (split; [reflexivity | frame_close]). }
  rewrite (set_query_cancelled_same w false (not_cancelled_mark env w Hc)).
  unfold may_wait in Hmay.
  destruct (is_attach_query ctx && wait_gc w).
  2:{ destruct (enable_thread_catch_bad_alloc ctx) eqn:Hcatch;
        eexists _, _; (split; [reflexivity | frame_close]). }
  cbn [andb] in Hmay. rewrite Hmay.
  unfold wait_ceiling_reached. run_check.
  destruct (thread_wait_gc_max_milliseconds cfg <=? 0).
  2:{ eexists _, _. split; [reflexivity | frame_close]. }
  destruct (enable_thread_catch_bad_alloc ctx) eqn:Hcatch; cbn [negb];
    eexists _, _; (split; [reflexivity | frame_close]).
Qed.

(** ** More on the admission checks *)

(** X1.  With memory checking bypassed ([skip_memory_check] not zero)
    the checks return at once and leave the world as it is, whatever the
    limits, the fault injection and the fuel. *)
Theorem memory_check_bypassed cfg env ctx fuel size w :
  skip_memory_check ctx <> 0 ->
  sys_memory_check cfg env ctx fuel size w = Some (Val tt, w) /\
  memory_tracker_check env ctx size w = Some (Val tt, w) /\
  memory_check cfg env ctx fuel size w = Some (Val tt, w).
Proof.
  intros Hskip. apply Z.eqb_neq in Hskip.
  assert (Hsys : sys_memory_check cfg env ctx fuel size w = Some (Val tt, w)).
  { unfold sys_memory_check, call, sys_memory_check_body. now rewrite Hskip. }
  assert (Htr : memory_tracker_check env ctx size w = Some (Val tt, w)).
  { unfold memory_tracker_check, call, memory_tracker_check_body. now rewrite Hskip. }
  repeat split; auto.
  unfold memory_check, bind. now rewrite Hsys.
Qed.

Lemma memory_check_bypassed_witness :
  fault_fires (Scenario.cfg (1 # 2) 1000 false) (Scenario.env None None true) = true /\
  hard_mem_limit_exceeded (Scenario.env None None true) 0 200 = true /\
  status_ok (check_limit (Scenario.env None None true) 0 200) = false /\
  memory_check (Scenario.cfg (1 # 2) 1000 false) (Scenario.env None None true)
    (mkThreadContext 1 "q1" "t7" "Query#Id=q1" 950 950 "scan" true true)
    0 200 Scenario.world
  = Some (Val tt, Scenario.world).
Proof.
  split; [reflexivity | split; [reflexivity | split; [reflexivity |]]].
  destruct (memory_check_bypassed
              (Scenario.cfg (1 # 2) 1000 false) (Scenario.env None None true)
              (mkThreadContext 1 "q1" "t7" "Query#Id=q1" 950 950 "scan" true true)
              0 200 Scenario.world)
    as (_ & _ & Hrun); [discriminate | exact Hrun].
Defined.

(** X2.  A request within both limits, with no fault injected, is
    admitted silently: [memory_check] returns with the world unchanged.
    It does not read the cancellation mark or the wait eligibility and
    needs no fuel. *)
Theorem memory_check_within_limits cfg env ctx fuel size w :
  skip_memory_check ctx = 0 ->
  fault_fires cfg env = false ->
  hard_mem_limit_exceeded env (clock_ms w) size = false ->
  status_ok (check_limit env (clock_ms w) size) = true ->
  memory_check cfg env ctx fuel size w = Some (Val tt, w).
Proof.
  intros Hskip Hfault Hex Hst.
  unfold memory_check, bind.
  rewrite sys_check_within_limit by assumption.
  run_check. rewrite Hskip. cbn [Z.eqb negb]. now rewrite Hst.
Qed.

Lemma memory_check_within_limits_witness :
  query_is_cancelled (Scenario.env None (Some 0) false) Scenario.world = true /\
  memory_check (Scenario.cfg 0 1000 false) (Scenario.env None (Some 0) false)
    (Scenario.ctx true true) 0 10 Scenario.world
  = Some (Val tt, Scenario.world).
Proof.
  split; [reflexivity |].
  apply (memory_check_within_limits
           (Scenario.cfg 0 1000 false) (Scenario.env None (Some 0) false)
           (Scenario.ctx true true) 0 10 Scenario.world);
    reflexivity.
Defined.

(** X3.  [memory_check] ends, with fuel for the polls the ceiling
    allows, by a normal return or by raising.  It raises only in
    synchronous-unwind mode, only [MEM_ALLOC_FAILED], and only with the
    injection message, the hard-limit message or the soft-limit message;
    in asynchronous mode it always returns. *)
Theorem memory_check_raises_only_when_caught cfg env ctx fuel size w :
  (polls_left cfg 0 <= fuel)%nat ->
  exists (r : Res unit) (w' : World),
    memory_check cfg env ctx fuel size w = Some (r, w') /\
    (r = Val tt \/
     enable_thread_catch_bad_alloc ctx = true /\
     exists text,
       r = Exn MEM_ALLOC_FAILED text /\ check_texts cfg env ctx size text).
Proof.
  intros Hfuel.
  destruct (memory_check_frame cfg env ctx size fuel w Hfuel)
    as (r & w' & Hrun & _ & Hr & Hret).
  exists r, w'. split; [exact Hrun |].
  destruct r as [[] | | code text]; [now left | contradiction |].
  destruct (Hr code text eq_refl) as (Hc & -> & Htext).
  right. split; [exact Hc |]. now exists text.
Qed.

Lemma memory_check_raises_only_when_caught_witness :
  exists w' : World,
    memory_check (Scenario.cfg 0 250 false) (Scenario.env None None false)
      (Scenario.ctx true false) 3 200 Scenario.world = Some (Val tt, w').
Proof.
  destruct (memory_check_raises_only_when_caught
              (Scenario.cfg 0 250 false) (Scenario.env None None false)
              (Scenario.ctx true false) 3 200 Scenario.world)
    as (r & w' & Hrun & [-> | [Hcatch _]]).
  - vm_compute. lia.
  - exists w'. exact Hrun.
  - discriminate Hcatch.
Defined.

(** X4.  In synchronous-unwind mode [memory_check] never cancels the
    query itself: whatever the path, no [cancel_query] is among the calls
    it adds to the trace. *)
Theorem sync_mode_never_cancels cfg env ctx fuel size w :
  enable_thread_catch_bad_alloc ctx = true ->
  (polls_left cfg 0 <= fuel)%nat ->
  exists (r : Res unit) (w' : World) (said : list Event),
    memory_check cfg env ctx fuel size w = Some (r, w') /\
    trace w' = (trace w ++ said)%list /\
    forall text, ~ In (EvCancelQuery text) said.
Proof.
  intros Hcatch Hfuel.
  destruct (memory_check_frame cfg env ctx size fuel w Hfuel)
    as (r & w' & Hrun & ((said & Htr & Hsaid) & _) & _).
  exists r, w', said. repeat split; auto.
Qed.

Lemma sync_mode_never_cancels_witness :
  exists (r : Res unit) (w' : World),
    memory_check (Scenario.cfg (1 # 2) 250 false) (Scenario.env None None true)
      (Scenario.ctx true true) 3 200 Scenario.world = Some (r, w') /\
    forall text, ~ In (EvCancelQuery text) (trace w').
Proof.
  destruct (sync_mode_never_cancels
              (Scenario.cfg (1 # 2) 250 false) (Scenario.env None None true)
              (Scenario.ctx true true) 3 200 Scenario.world)
    as (r & w' & said & Hrun & Htr & Hsaid).
  - reflexivity.
  - vm_compute. lia.
  - exists r, w'. split; [exact Hrun |]. rewrite Htr. exact Hsaid.
Defined.

(** X5.  What [memory_check] does to the state is one-way.  The trace
    only grows; the clock advances by a whole number of 100 ms
    increments, at most as many as the ceiling allows; the growth
    counter is left alone or, after at least one sleep, has the request's
    size added once; waiting is never re-enabled, and a cancellation
    mark is never cleared. *)
Theorem memory_check_one_way cfg env ctx fuel size w :
  (polls_left cfg 0 <= fuel)%nat ->
  exists (r : Res unit) (w' : World) (said : list Event) (n : nat),
    memory_check cfg env ctx fuel size w = Some (r, w') /\
    trace w' = (trace w ++ said)%list /\
    (n <= polls_left cfg 0)%nat /\
    clock_ms w' = clock_ms w + 100 * Z.of_nat n /\
    (refresh_interval_memory_growth w' = refresh_interval_memory_growth w \/
     (0 < n)%nat /\
     refresh_interval_memory_growth w'
     = wrap_int64 (refresh_interval_memory_growth w + size)) /\
    (wait_gc w = false -> wait_gc w' = false) /\
    (query_cancelled w = true -> query_cancelled w' = true).
Proof.
  intros Hfuel.
  destruct (memory_check_frame cfg env ctx size fuel w Hfuel)
    as (r & w' & Hrun & ((said & Htr & _) & (n & Hn & Hclk & Hgrow) & Hwg & Hq) & _).
  exists r, w', said, n. repeat split; auto.
  intros Hoff. destruct (wait_gc w'); [| reflexivity].
  rewrite (Hwg eq_refl) in Hoff. discriminate.
Qed.

Lemma memory_check_one_way_witness :
  exists (r : Res unit) (w' : World) (n : nat),
    memory_check (Scenario.cfg 0 250 false) (Scenario.env (Some 200) None false)
      (Scenario.ctx true false) 3 200 (set_wait_gc false Scenario.world)
    = Some (r, w') /\
    (n <= 3)%nat /\
    clock_ms w' = 100 * Z.of_nat n /\
    wait_gc w' = false.
Proof.
  destruct (memory_check_one_way
              (Scenario.cfg 0 250 false) (Scenario.env (Some 200) None false)
              (Scenario.ctx true false) 3 200 (set_wait_gc false Scenario.world))
    as (r & w' & said & n & Hrun & _ & Hn & Hclk & _ & Hwg & _).
  - vm_compute. lia.
  - exists r, w', n. repeat split; auto.
Defined.

(** X6.  The checks sleep only for a context that may wait: attached to
    a query, still wait-eligible, with memory GC not disabled.  For any
    other context [memory_check] ends at once, whatever the fuel, with
    the clock and the growth counter untouched. *)
Theorem no_sleep_unless_may_wait cfg env ctx fuel size w :
  may_wait cfg ctx w = false ->
  exists (r : Res unit) (w' : World),
    memory_check cfg env ctx fuel size w = Some (r, w') /\
    clock_ms w' = clock_ms w /\
    refresh_interval_memory_growth w' = refresh_interval_memory_growth w.
Proof.
  intros Hmay.
  assert (Hsys : exists (r1 : Res unit) (w1 : World),
            sys_memory_check cfg env ctx fuel size w = Some (r1, w1) /\
            frame (enable_thread_catch_bad_alloc ctx) size 0 w w1 /\
            r1 <> Ret).
  { unfold sys_memory_check, call, sys_memory_check_body.
    destruct (negb (skip_memory_check ctx =? 0)).
    { eexists _, _. split; [reflexivity |]. split; [frame_close | discriminate]. }
    unfold bind at 1.
    destruct (fault_injection_frame cfg env ctx size w)
      as (r0 & w1 & -> & Hframe0 & _ & Hret0).
    destruct r0 as [[] | | code text]; [| contradiction |].
    2:{ eexists _, _. split; [reflexivity |]. split; [exact Hframe0 | discriminate]. }
    destruct (hard_limit_no_sleep cfg env ctx fuel size w1
                (may_wait_frame cfg ctx _ _ _ _ _ Hframe0 Hmay))
      as (r & w' & -> & Hframe).
    pose proof (frame_trans _ _ _ _ _ _ _ Hframe0 Hframe (or_introl eq_refl)) as Hall.
    destruct r; eexists _, _; (split; [reflexivity |]);
      (split; [exact Hall | discriminate]). }
  destruct Hsys as (r1 & w1 & Hrun1 & Hframe1 & Hret1).
  unfold memory_check, bind. rewrite Hrun1.
  destruct r1 as [[] | | code text]; [| contradiction |].
  2:{ eexists _, _. split; [reflexivity |]. exact (frame_0_still _ _ _ _ Hframe1). }
  destruct (tracker_frame env ctx size w1) as (r & w' & -> & Hframe & _).
  exists r, w'. split; [reflexivity |].
  exact (frame_0_still _ _ _ _
           (frame_trans _ _ _ _ _ _ _ Hframe1 Hframe (or_introl eq_refl))).
Qed.

Lemma no_sleep_unless_may_wait_witness :
  hard_mem_limit_exceeded (Scenario.env None None false) 0 200 = true /\
  exists (r : Res unit) (w' : World),
    memory_check (Scenario.cfg 0 1000 false) (Scenario.env None None false)
      (Scenario.ctx false true) 0 200 Scenario.world = Some (r, w') /\
    clock_ms w' = 0 /\
    refresh_interval_memory_growth w' = 0.
Proof.
  split; [reflexivity |].
  apply (no_sleep_unless_may_wait
           (Scenario.cfg 0 1000 false) (Scenario.env None None false)
           (Scenario.ctx false true) 0 200 Scenario.world).
  reflexivity.
Defined.

(** X7.  A soft-limit violation by a context that is not attached to a
    query leaves the query and the wait eligibility alone: the check
    logs twice and, in synchronous-unwind mode, raises; in asynchronous
    mode it returns, so the allocation goes ahead past the soft limit. *)
Theorem unattached_soft_limit_violation env ctx size w :
  skip_memory_check ctx = 0 ->
  status_ok (check_limit env (clock_ms w) size) = false ->
  is_attach_query ctx = false ->
  exists (r : Res unit) (w' : World) (text : string),
    memory_tracker_check env ctx size w = Some (r, w') /\
    r = (if enable_thread_catch_bad_alloc ctx
         then Exn MEM_ALLOC_FAILED (tracker_err_msg (check_limit env (clock_ms w) size))
         else Val tt) /\
    trace w'
    = (trace w ++
       [EvPrintLogUsage (tracker_err_msg (check_limit env (clock_ms w) size));
        EvLogInfo text])%list /\
    wait_gc w' = wait_gc w /\
    query_cancelled w' = query_cancelled w /\
    clock_ms w' = clock_ms w /\
    (enable_thread_catch_bad_alloc ctx = false ->
     decision (r, w') = if query_cancelled w then Cancelled else Proceed).
Proof.
  intros Hskip Hst Hat.
  rewrite tracker_check_failed by assumption.
  cbv zeta. rewrite Hat.
  destruct (enable_thread_catch_bad_alloc ctx); eexists _, _, _;
    (split; [reflexivity |]); (split; [reflexivity |]);
    (split; [cbn [trace emit]; rewrite <- app_assoc; reflexivity |]);
    repeat split; intros; try discriminate; reflexivity.
Qed.

Lemma unattached_soft_limit_violation_witness :
  exists (w' : World),
    memory_tracker_check (Scenario.env None None false) (Scenario.ctx false false)
      30 Scenario.world = Some (Val tt, w') /\
    wait_gc w' = true /\
    query_cancelled w' = false /\
    decision (Val tt, w') = Proceed.
Proof.
  destruct (unattached_soft_limit_violation
              (Scenario.env None None false) (Scenario.ctx false false)
              30 Scenario.world)
    as (r & w' & text & Hrun & -> & _ & Hwg & Hq & _ & Hdec); try reflexivity.
  exists w'.
  split; [exact Hrun | split; [exact Hwg | split; [exact Hq | exact (Hdec eq_refl)]]].
Defined.

(** X8.  The soft-limit check does not look at what the hard-limit check
    did.  In asynchronous mode a request that exhausts the wait and then
    violates the soft limit has its query cancelled twice by one
    [memory_check], first with the hard-limit message, then with the
    soft-limit message, and waiting disabled twice. *)
Theorem ceiling_then_soft_limit_cancels_twice cfg env ctx fuel size w :
  skip_memory_check ctx = 0 ->
  fault_fires cfg env = false ->
  hard_mem_limit_exceeded env (clock_ms w) size = true ->
  query_is_cancelled env w = false ->
  is_attach_query ctx = true ->
  wait_gc w = true ->
  enable_thread_catch_bad_alloc ctx = false ->
  disable_memory_gc cfg = false \/ thread_wait_gc_max_milliseconds cfg <= 0 ->
  polls_blocked env size w (polls_left cfg 0) = true ->
  (polls_left cfg 0 <= fuel)%nat ->
  status_ok (check_limit env (clock_ms w + 100 * Z.of_nat (polls_left cfg 0)) size)
  = false ->
  exists (w' : World) (soft_msg : string),
    soft_msg
    = tracker_err_msg
        (check_limit env (clock_ms w + 100 * Z.of_nat (polls_left cfg 0)) size) /\
    memory_check cfg env ctx fuel size w = Some (Val tt, w') /\
    trace w'
    = (trace w ++
       [EvLogInfo (waiting_msg cfg ctx (sys_err_msg cfg env ctx size));
        EvDisableWaitGc;
        EvPrintLogProcessUsage;
        EvLogInfo (canceled_asyn_msg ctx (100 * Z.of_nat (polls_left cfg 0))
                     (sys_err_msg cfg env ctx size));
        EvCancelQuery (sys_err_msg cfg env ctx size);
        EvPrintLogUsage soft_msg;
        EvDisableWaitGc;
        EvLogInfo ("query/load:" ++ task_id ctx ++ " canceled asyn, " ++
                   soft_msg ++ ".");
        EvCancelQuery soft_msg])%list /\
    decision (Val tt, w') = Cancelled.
Proof.
  intros Hskip Hfault Hex Hc Hat Hwg Hcatch Hgc Hblocked Hfuel Hst.
  unfold memory_check, bind.
  rewrite sys_check_ceiling by assumption.
  rewrite Hcatch.
  rewrite tracker_check_failed by (assumption || exact Hst).
  cbv zeta. rewrite Hat, Hcatch.
  eexists _, _. split; [reflexivity |]. split; [reflexivity |].
  split; [| reflexivity].
  cbn [trace emit set_wait_gc set_query_cancelled advance ceiling_world
       waiting_world clock_ms].
  rewrite <- !app_assoc. reflexivity.
Qed.

Lemma ceiling_then_soft_limit_cancels_twice_witness :
  exists (w' : World),
    memory_check (Scenario.cfg 0 250 false) (Scenario.env None None false)
      (Scenario.ctx true false) 3 200 Scenario.world = Some (Val tt, w') /\
    decision (Val tt, w') = Cancelled /\
    List.length (trace w') = 9%nat.
Proof.
  destruct (ceiling_then_soft_limit_cancels_twice
              (Scenario.cfg 0 250 false) (Scenario.env None None false)
              (Scenario.ctx true false) 3 200 Scenario.world)
    as (w' & soft_msg & _ & Hrun & Htr & Hdec); try reflexivity.
  - left. reflexivity.
  - exists w'. repeat split; auto. rewrite Htr. reflexivity.
Defined.

(** X9.  In asynchronous mode, with no fault injected, a thread that is
    not attached to a query is never stopped by [memory_check]: whatever
    the two limits say, and whatever the fuel, the check returns without
    sleeping, without cancelling and without touching the wait
    eligibility or the growth counter; all it adds to the trace are log
    calls. *)
Theorem unattached_async_never_stopped cfg env ctx fuel size w :
  is_attach_query ctx = false ->
  enable_thread_catch_bad_alloc ctx = false ->
  fault_fires cfg env = false ->
  exists (w' : World) (said : list Event),
    memory_check cfg env ctx fuel size w = Some (Val tt, w') /\
    trace w' = (trace w ++ said)%list /\
    (forall e, In e said ->
       (exists text, e = EvLogInfo text) \/ (exists text, e = EvPrintLogUsage text)) /\
    clock_ms w' = clock_ms w /\
    wait_gc w' = wait_gc w /\
    refresh_interval_memory_growth w' = refresh_interval_memory_growth w /\
    (query_cancelled w' = true -> query_is_cancelled env w = true).
Proof.
  intros Hat Hcatch Hfault.
  destruct (Z.eq_dec (skip_memory_check ctx) 0) as [Hskip | Hskip].
  2:{ apply Z.eqb_neq in Hskip.
      exists w, []. rewrite app_nil_r.
      unfold memory_check, bind, sys_memory_check, memory_tracker_check, call,
        sys_memory_check_body, memory_tracker_check_body.
      rewrite Hskip. cbn [negb].
      repeat split; auto; [intros e [] |].
      unfold query_is_cancelled. intros ->. reflexivity. }
  assert (Hsys : exists (w1 : World) (said1 : list Event),
            sys_memory_check cfg env ctx fuel size w = Some (Val tt, w1) /\
            trace w1 = (trace w ++ said1)%list /\
            (forall e, In e said1 -> exists text, e = EvLogInfo text) /\
            clock_ms w1 = clock_ms w /\
            wait_gc w1 = wait_gc w /\
            refresh_interval_memory_growth w1 = refresh_interval_memory_growth w /\
            (query_cancelled w1 = true -> query_is_cancelled env w = true)).
  { destruct (hard_mem_limit_exceeded env (clock_ms w) size) eqn:Hex.
    2:{ rewrite sys_check_within_limit by assumption.
        exists w, []. rewrite app_nil_r.
        repeat split; auto; [intros e [] |].
        unfold query_is_cancelled. intros ->. reflexivity. }
    destruct (query_is_cancelled env w) eqn:Hc.
    - rewrite sys_check_already_cancelled by assumption. rewrite Hcatch.
      eexists _, []. rewrite app_nil_r.
      repeat split; auto. intros e [].
    - rewrite sys_check_no_wait by (assumption || now rewrite Hat).
      rewrite Hcatch.
      eexists _, [_]. split; [reflexivity |].
      repeat split; auto.
      + intros e [<- | []]. eauto.
      + cbn [query_cancelled emit]. intros Hq.
        rewrite (not_cancelled_mark env w Hc) in Hq. discriminate. }
  destruct Hsys as (w1 & said1 & Hrun1 & Htr1 & Hsaid1 & Hclk1 & Hwg1 & Hgrow1 & Hq1).
  unfold memory_check, bind. rewrite Hrun1.
  destruct (status_ok (check_limit env (clock_ms w1) size)) eqn:Hst.
  - exists w1, said1. split.
    + run_check. rewrite Hskip. cbn [Z.eqb negb]. now rewrite Hst.
    + repeat split; auto.
  - rewrite tracker_check_failed by assumption.
    cbv zeta. rewrite Hat, Hcatch.
    eexists _, (said1 ++ [_; _])%list. split; [reflexivity |].
    cbn [trace emit clock_ms wait_gc query_cancelled
         refresh_interval_memory_growth].
    split; [rewrite Htr1, <- !app_assoc; reflexivity |].
    split; [| repeat split; auto].
    intros e He. apply in_app_iff in He.
    destruct He as [He | [<- | [<- | []]]]; [left; auto | right; eauto | left; eauto].
Qed.

Lemma unattached_async_never_stopped_witness :
  hard_mem_limit_exceeded (Scenario.env None None false) 0 200 = true /\
  status_ok (check_limit (Scenario.env None None false) 0 200) = false /\
  exists (w' : World),
    memory_check (Scenario.cfg 0 1000 false) (Scenario.env None None false)
      (Scenario.ctx false false) 0 200 Scenario.world = Some (Val tt, w') /\
    decision (Val tt, w') = Proceed /\
    clock_ms w' = 0.
Proof.
  split; [reflexivity | split; [reflexivity |]].
  destruct (unattached_async_never_stopped
              (Scenario.cfg 0 1000 false) (Scenario.env None None false)
              (Scenario.ctx false false) 0 200 Scenario.world)
    as (w' & said & Hrun & _ & _ & Hclk & _ & _ & Hq); try reflexivity.
  exists w'. repeat split; auto.
  unfold decision. destruct (query_cancelled w'); [| reflexivity].
  discriminate (Hq eq_refl).
Defined.

(** X10.  The hard-limit check comes first.  In synchronous-unwind mode
    a request over the hard limit from a context that cannot wait raises
    the hard-limit message whatever the query's tracker would say: the
    soft-limit check is not reached, so nothing is logged for it and the
    wait eligibility stays as it was. *)
Theorem hard_limit_failure_precedes_soft_limit cfg env ctx fuel size w :
  skip_memory_check ctx = 0 ->
  fault_fires cfg env = false ->
  hard_mem_limit_exceeded env (clock_ms w) size = true ->
  is_attach_query ctx && wait_gc w = false ->
  enable_thread_catch_bad_alloc ctx = true ->
  exists (w' : World) (said : list Event),
    memory_check cfg env ctx fuel size w
    = Some (Exn MEM_ALLOC_FAILED (sys_err_msg cfg env ctx size), w') /\
    trace w' = (trace w ++ said)%list /\
    (forall text, ~ In (EvPrintLogUsage text) said) /\
    (forall e, In e said -> e <> EvDisableWaitGc) /\
    wait_gc w' = wait_gc w.
Proof.
  intros Hskip Hfault Hex Hel Hcatch.
  unfold memory_check, bind.
  destruct (query_is_cancelled env w) eqn:Hc.
  - rewrite sys_check_already_cancelled by assumption. rewrite Hcatch.
    eexists _, []. split; [reflexivity |]. rewrite app_nil_r.
    repeat split; auto; intros ? [].
  - rewrite sys_check_no_wait by assumption. rewrite Hcatch.
    eexists _, [_; _]. split; [reflexivity |].
    cbn [trace emit wait_gc]. rewrite <- app_assoc.
    repeat split; auto.
    + intros text [H | [H | []]]; discriminate.
    + intros e [<- | [<- | []]]; discriminate.
Qed.

Lemma hard_limit_failure_precedes_soft_limit_witness :
  status_ok (check_limit (Scenario.env None None false) 0 200) = false /\
  exists (w' : World),
    memory_check (Scenario.cfg 0 1000 false) (Scenario.env None None false)
      (Scenario.ctx false true) 0 200 Scenario.world
    = Some (Exn MEM_ALLOC_FAILED
              (sys_err_msg (Scenario.cfg 0 1000 false) (Scenario.env None None false)
                 (Scenario.ctx false true) 200), w') /\
    wait_gc w' = true.
Proof.
  split; [reflexivity |].
  destruct (hard_limit_failure_precedes_soft_limit
              (Scenario.cfg 0 1000 false) (Scenario.env None None false)
              (Scenario.ctx false true) 0 200 Scenario.world)
    as (w' & said & Hrun & _ & _ & _ & Hwg); try reflexivity.
  exists w'. split; [exact Hrun | exact Hwg].
Defined.

(** X11.  The members defined in this file are instantiated for every
    choice of the three flags with [DefaultMemoryAllocator] and with
    [RecordSizeMemoryAllocator], and for every choice but
    [<true, true, true>] with [ORCMemoryAllocator]; no instantiation is
    listed twice. *)
Theorem instantiations_all_but_one :
  (forall clear populate mmap allocator,
     instantiated (mkInstantiation clear populate mmap allocator)
     = negb (clear && populate && mmap &&
             memory_allocator_eqb allocator ORCMemoryAllocator)) /\
  NoDup instantiations /\
  List.length instantiations = 23%nat.
Proof.
  split; [| split].
  - intros [] [] [] []; reflexivity.
  - unfold instantiations.
    repeat (constructor; [simpl; intuition discriminate |]).
    constructor.
  - reflexivity.
Qed.

(** The loop leaves by its condition only after every poll that was
    left. *)
Lemma wait_ceiling_exact cfg env ctx size err_msg fuel : forall waited w v w',
  wait_for_gc cfg env ctx fuel size err_msg waited w = Some (Val v, w') ->
  thread_wait_gc_max_milliseconds cfg <= v ->
  v = waited + 100 * Z.of_nat (polls_left cfg waited) /\
  clock_ms w' = clock_ms w + 100 * Z.of_nat (polls_left cfg waited).
Proof.
  induction fuel as [| fuel IH]; intros waited w v w' Hrun Hv;
    destruct (Z_lt_le_dec waited (thread_wait_gc_max_milliseconds cfg)) as [Hlt | Hge].
  - simpl in Hrun. apply Z.ltb_lt in Hlt. rewrite Hlt in Hrun. discriminate.
  - rewrite wait_done in Hrun by assumption. injection Hrun as <- <-.
    rewrite polls_left_done by assumption. simpl. lia.
  - destruct (poll_exceeded env size w 1) eqn:Hex.
    2:{ rewrite wait_step_freed in Hrun by assumption.
        injection Hrun as <- <-. lia. }
    destruct (poll_cancelled env w 1) eqn:Hc.
    { rewrite wait_step_cancelled in Hrun by assumption.
      destruct (enable_thread_catch_bad_alloc ctx); discriminate. }
    rewrite wait_step_blocked in Hrun by assumption.
    destruct (IH _ _ _ _ Hrun Hv) as [-> Hclk].
    rewrite (polls_left_step cfg waited Hlt).
    rewrite Hclk. cbn [clock_ms advance]. lia.
  - rewrite wait_done in Hrun by assumption. injection Hrun as <- <-.
    rewrite polls_left_done by assumption. simpl. lia.
Qed.

Lemma hard_limit_disables_at_ceiling cfg env ctx fuel size w :
  (polls_left cfg 0 <= fuel)%nat ->
  exists (r : Res unit) (w' : World),
    hard_limit_check cfg env ctx fuel size w = Some (r, w') /\
    (wait_gc w = true -> wait_gc w' = false ->
     clock_ms w' = clock_ms w + 100 * Z.of_nat (polls_left cfg 0) /\
     is_attach_query ctx = true /\
     (disable_memory_gc cfg = false \/ thread_wait_gc_max_milliseconds cfg <= 0) /\
     r = (if enable_thread_catch_bad_alloc ctx
          then Exn MEM_ALLOC_FAILED (sys_err_msg cfg env ctx size)
          else Val tt) /\
     (enable_thread_catch_bad_alloc ctx = false -> query_cancelled w' = true)).
Proof.
  intros Hfuel. unfold hard_limit_check.
  cbv [bind when is_exceed_hard_mem_limit is_query_cancelled get_wait_gc
       log_info modify throw return_ ret print_log_process_usage].
  destruct (hard_mem_limit_exceeded env (clock_ms w) size).
  2:{ eexists _, _. split; [reflexivity |]. congruence. }
  destruct (query_is_cancelled env w) eqn:Hc.
  { destruct (enable_thread_catch_bad_alloc ctx); eexists _, _;
      (split; [reflexivity |]); cbn [wait_gc set_query_cancelled]; congruence. }
  rewrite (set_query_cancelled_same w false (not_cancelled_mark env w Hc)).
  destruct (is_attach_query ctx) eqn:Hat; cbn [andb].
  2:{ destruct (enable_thread_catch_bad_alloc ctx); eexists _, _;
        (split; [reflexivity |]); cbn [wait_gc emit]; congruence. }
  destruct (wait_gc w) eqn:Hwg.
  2:{ destruct (enable_thread_catch_bad_alloc ctx); eexists _, _;
        (split; [reflexivity |]); discriminate. }
  match goal with
  | |- context [(if negb (disable_memory_gc cfg) then ?l else ?e) ?w0] =>
      assert (Hloop : exists (r1 : Res Z) (w1 : World),
                 (if negb (disable_memory_gc cfg) then l else e) w0
                 = Some (r1, w1) /\
                 wait_gc w1 = true /\
                 forall v, r1 = Val v ->
                   thread_wait_gc_max_milliseconds cfg <= v ->
                   v = 100 * Z.of_nat (polls_left cfg 0) /\
                   clock_ms w1 = clock_ms w + 100 * Z.of_nat (polls_left cfg 0) /\
                   (disable_memory_gc cfg = false \/
                    thread_wait_gc_max_milliseconds cfg <= 0))
  end.
  { destruct (disable_memory_gc cfg); cbn [negb].
    - eexists _, _. split; [reflexivity |]. split; [exact Hwg |].
      intros v [= <-] Hv. rewrite (polls_left_done cfg 0 Hv).
      cbn [clock_ms emit]. simpl. repeat split; auto. lia.
    - match goal with
      | |- context [wait_for_gc _ _ _ _ _ ?m _ ?w0] =>
          destruct (wait_total cfg env ctx size m fuel 0 w0 Hfuel)
            as (n & r1 & w1 & Hrun & _ & _ & Hwg1 & _)
      end.
      exists r1, w1. split; [exact Hrun |]. split; [rewrite Hwg1; exact Hwg |].
      intros v -> Hv.
      destruct (wait_ceiling_exact _ _ _ _ _ _ _ _ _ _ Hrun Hv) as [-> Hclk].
      repeat split; auto. }
  destruct Hloop as (r1 & w1 & Hrun & Hwg1 & Hexact).
  rewrite Hrun.
  destruct r1 as [v | | code text].
  - unfold wait_ceiling_reached. run_check.
    destruct (thread_wait_gc_max_milliseconds cfg <=? v) eqn:Hv.
    2:{ eexists _, _. split; [reflexivity |]. congruence. }
    apply Z.leb_le in Hv.
    destruct (Hexact v eq_refl Hv) as (-> & Hclk & Hgc).
    destruct (enable_thread_catch_bad_alloc ctx); cbn [negb];
      eexists _, _; (split; [reflexivity |]); intros _ _;
      cbn [clock_ms emit set_wait_gc set_query_cancelled query_cancelled];
      repeat split; auto; discriminate.
  - eexists _, _. split; [reflexivity |]. congruence.
  - eexists _, _. split; [reflexivity |]. congruence.
Qed.

(** X12.  Waiting is given up only at the ceiling.  If [sys_memory_check]
    finds the context wait-eligible and leaves it not so, then the
    context is attached, the check has slept through every poll the
    ceiling allows (none when the ceiling is not positive), and it
    escalated: it raised the hard-limit message in synchronous-unwind
    mode and left the query cancelled in asynchronous mode. *)
Theorem waiting_disabled_only_at_ceiling cfg env ctx fuel size w :
  (polls_left cfg 0 <= fuel)%nat ->
  exists (r : Res unit) (w' : World),
    sys_memory_check cfg env ctx fuel size w = Some (r, w') /\
    (wait_gc w = true -> wait_gc w' = false ->
     clock_ms w' = clock_ms w + 100 * Z.of_nat (polls_left cfg 0) /\
     is_attach_query ctx = true /\
     (disable_memory_gc cfg = false \/ thread_wait_gc_max_milliseconds cfg <= 0) /\
     r = (if enable_thread_catch_bad_alloc ctx
          then Exn MEM_ALLOC_FAILED (sys_err_msg cfg env ctx size)
          else Val tt) /\
     (enable_thread_catch_bad_alloc ctx = false -> query_cancelled w' = true)).
Proof.
  intros Hfuel. unfold sys_memory_check, call, sys_memory_check_body.
  destruct (negb (skip_memory_check ctx =? 0)).
  { eexists _, _. split; [reflexivity |]. congruence. }
  unfold bind at 1.
  destruct (fault_injection_total cfg env ctx w)
    as (r0 & w1 & -> & Hclk1 & Hwg1 & [-> | ->]).
  2:{ eexists _, _. split; [reflexivity |]. congruence. }
  destruct (hard_limit_disables_at_ceiling cfg env ctx fuel size w1 Hfuel)
    as (r & w' & -> & Hoff).
  rewrite Hwg1, Hclk1 in Hoff.
  destruct r as [[] | | code text]; eexists _, _;
    (split; [reflexivity |]); intros Hon Hoff';
    destruct (Hoff Hon Hoff') as (Hclk & Hat & Hgc & Hr & Hq);
    repeat split; auto;
    destruct (enable_thread_catch_bad_alloc ctx); congruence.
Qed.

Lemma waiting_disabled_only_at_ceiling_witness :
  exists (r : Res unit) (w' : World),
    sys_memory_check (Scenario.cfg 0 250 false) (Scenario.env None None false)
      (Scenario.ctx true true) 3 200 Scenario.world = Some (r, w') /\
    wait_gc w' = false /\
    clock_ms w' = 300 /\
    r = Exn MEM_ALLOC_FAILED
          (sys_err_msg (Scenario.cfg 0 250 false) (Scenario.env None None false)
             (Scenario.ctx true true) 200).
Proof.
  destruct (waiting_disabled_only_at_ceiling
              (Scenario.cfg 0 250 false) (Scenario.env None None false)
              (Scenario.ctx true true) 3 200 Scenario.world)
    as (r & w' & Hrun & Hoff).
  - vm_compute. lia.
  - assert (Hwg : wait_gc w' = false).
    { vm_compute in Hrun. injection Hrun as _ <-. reflexivity. }
    destruct (Hoff eq_refl Hwg) as (Hclk & _ & _ & Hr & _).
    exists r, w'. repeat split; assumption.
Defined.
